(** * Brute-force chord progression generator

    A shallow embedding of [chord_generation.py]: the class
    [Chord_progression_generator] with its constructor, the enumeration of
    all chord progressions with [itertools.product], and the three ways of
    saving them ("midi", "xml", "json").

    Pitches are Python integers ([Z]); a chord is a list of pitches, a
    progression a list of chords.  Methods run in a small state-and-exception
    monad over the interpreter state they can touch: the generator object,
    the files on disk and the text printed so far. *)

From Stdlib Require Import ZArith Ascii String List Lia Decimal DecimalString.
From Stdlib Require DecimalFacts DecimalPos DecimalZ.
From stdpp Require Import base tactics option list gmap strings.

Open Scope string_scope.
Open Scope Z_scope.
Open Scope list_scope.

(** ** Python built-ins used by the program *)

Module Py.

(** [range(a, b)] and [range(n)] on integers. *)
Definition range2 (a b : Z) : list Z :=
  map (fun k => a + Z.of_nat k) (seq 0 (Z.to_nat (b - a))).

Definition range (n : Z) : list Z := range2 0 n.

(** [str(i)] of an integer: decimal digits, a leading minus sign for
    negative numbers, no leading zeros. *)
Definition str (i : Z) : string := NilZero.string_of_int (Z.to_int i).

(** One line feed, as written by [print] and by the JSON encoder. *)
Definition nl : string := String (ascii_of_nat 10) "".

(** [os.path.join(a, b)] on a POSIX system, for two components. *)
Definition starts_with_sep (s : string) : bool :=
  match s with
  | String c _ => Ascii.eqb c "/"
  | EmptyString => false
  end.

Fixpoint ends_with_sep (s : string) : bool :=
  match s with
  | EmptyString => false
  | String c EmptyString => Ascii.eqb c "/"
  | String _ s' => ends_with_sep s'
  end.

Definition path_join (a b : string) : string :=
  if starts_with_sep b then b
  else if (String.eqb a "" || ends_with_sep a)%bool then a +:+ b
  else a +:+ "/" +:+ b.

(** [itertools.product] applied to a list of pools, following the
    equivalent given in the library documentation:
    [result = [[]]; for pool in pools:
       result = [x+[y] for x in result for y in pool]]. *)
Definition product_step {A} (result : list (list A)) (pool : list A)
  : list (list A) :=
  flat_map (fun x => map (fun y => x ++ [y]) pool) result.

Definition product {A} (pools : list (list A)) : list (list A) :=
  fold_left product_step pools [[]].

End Py.

(** ** The generator object and the interpreter state *)

Abbreviation chord := (list Z).
Abbreviation progression := (list chord).

Record Chord_progression_generator := mkGenerator {
  major_chord_template : list Z;
  minor_chord_template : list Z;
  chord_templates : list chord
}.

(** [__init__]: the two interval patterns, and the 24 templates obtained by
    transposing them to every root from C4 to B4. *)
Definition C4 : Z := 48.
Definition B4 : Z := 59.

Definition __init__ : Chord_progression_generator :=
  let major := [0; 4; 7] in
  let minor := [0; 3; 7] in
  {| major_chord_template := major;
     minor_chord_template := minor;
     chord_templates :=
       map (fun i => map (fun pc => pc + i) major) (Py.range2 C4 (B4 + 1)) ++
       map (fun i => map (fun pc => pc + i) minor) (Py.range2 C4 (B4 + 1)) |}.

(** The exception the program can raise by itself, and the outcome of a
    call: a value, or an exception that ends it. *)

Inductive exn :=
  | UnboundLocalError (name : string)
  | FileNotFoundError (path : string).

Inductive outcome (A : Type) :=
  | Returned (a : A)
  | Raised (e : exn).
Arguments Returned {A} a.
Arguments Raised {A} e.

Record machine := mkMachine {
  self : Chord_progression_generator;
  files : gmap string string;
  stdout : list string
}.

Definition py (A : Type) : Type := machine -> machine * outcome A.

#[global] Instance py_ret : MRet py := fun A a m => (m, Returned a).

#[global] Instance py_bind : MBind py := fun A B k c m =>
  match c m with
  | (m', Returned a) => k a m'
  | (m', Raised e) => (m', Raised e)
  end.

Definition raise {A} (e : exn) : py A := fun m => (m, Raised e).

Definition get_self : py Chord_progression_generator :=
  fun m => (m, Returned (self m)).

(** [print(s)]: the text and a line feed go to standard output. *)
Definition print (s : string) : py unit :=
  fun m => ({| self := self m; files := files m;
               stdout := stdout m ++ [s +:+ Py.nl] |}, Returned tt).

(** Writing a whole file: creates it or replaces its content.  A file is
    known by the text of its path; the directory is taken to exist and to
    be writable, so that the write succeeds. *)
Definition write_file (path content : string) : py unit :=
  fun m => ({| self := self m; files := <[path := content]> (files m);
               stdout := stdout m |}, Returned tt).

(** Reading a local variable that may not have been assigned. *)
Definition read_local {A} (name : string) (v : option A) : py A :=
  match v with
  | Some a => mret a
  | None => raise (UnboundLocalError name)
  end.

(** A [for] loop whose body updates the local variables [L]. *)
Fixpoint for_each {A L} (xs : list A) (body : A -> L -> py L) (l : L)
  : py L :=
  match xs with
  | [] => mret l
  | x :: xs' => l' ← body x l; for_each xs' body l'
  end.

(** ** Enumeration *)

Definition brute_forced_notice (num_chords : Z) : string :=
  "Brute forced all possible progressions for sequences containing "
  +:+ Py.str num_chords +:+ " chords!" +:+ Py.nl.

Definition generate_chord_progressions (num_chords : Z)
  : py (list progression) :=
  this ← get_self;
  let args := map (fun _ => chord_templates this) (Py.range num_chords) in
  let chord_progressions :=
    fold_left (fun acc chord_progression => acc ++ [chord_progression])
              (Py.product args) [] in
  print (brute_forced_notice num_chords);;
  mret chord_progressions.

(** The interpreter state right after [csg = Chord_progression_generator()]. *)
Definition fresh (fs : gmap string string) (out : list string) : machine :=
  {| self := __init__; files := fs; stdout := out |}.

(** The value returned by a call, if it returned. *)
Definition result {A} (r : machine * outcome A) : option A :=
  match r.2 with
  | Returned a => Some a
  | Raised _ => None
  end.

(** ** The [json] module, on integers and arrays

    [chord_progressions] is a list of lists of lists of integers, so of
    the JSON values only numbers without fraction and arrays occur. *)

Module Json.

#[warnings="-register-all"] Inductive value :=
  | Int (z : Z)
  | Arr (items : list value).

Definition of_chord (c : chord) : value := Arr (map Int c).
Definition of_progression (p : progression) : value :=
  Arr (map of_chord p).
Definition of_progressions (ps : list progression) : value :=
  Arr (map of_progression ps).

Fixpoint spaces (n : nat) : string :=
  match n with
  | O => ""
  | S n' => String " " (spaces n')
  end.

(** ['\n' + _indent * _current_indent_level] *)
Definition newline_indent (indent level : nat) : string :=
  Py.nl +:+ spaces (indent * level).

(** The encoder [_iterencode] with an indentation: an integer is its
    [repr]; an empty list is the two brackets; otherwise the opening
    bracket and a new line precede the first item, a comma and a new line
    every other one, and a new line at the outer level the closing
    bracket.  The chunks yielded are concatenated. *)
Fixpoint encode (indent level : nat) (v : value) {struct v} : string :=
  match v with
  | Int z => Py.str z
  | Arr [] => "[]"
  | Arr lst =>
      (fix items (l : list value) (first : bool) {struct l} : string :=
         match l with
         | [] => ""
         | x :: l' =>
             (if first then "[" +:+ newline_indent indent (S level)
              else "," +:+ newline_indent indent (S level))
             +:+ encode indent (S level) x +:+ items l' false
         end) lst true
      +:+ newline_indent indent level +:+ "]"
  end.

(** [json.dumps(obj, indent=indent)] *)
Definition dumps (obj : value) (indent : nat) : string :=
  encode indent 0 obj.

(** The decoder: white space, digits, the integer part of the number
    pattern (an optional minus sign, then a single zero or a nonzero digit
    followed by digits), [scan_once] and the loop of [JSONArray]. *)
Definition is_ws (c : ascii) : bool :=
  (Ascii.eqb c " " || Ascii.eqb c (ascii_of_nat 9) ||
   Ascii.eqb c (ascii_of_nat 10) || Ascii.eqb c (ascii_of_nat 13))%bool.

Fixpoint skip_ws (s : string) : string :=
  match s with
  | String c s' => if is_ws c then skip_ws s' else s
  | EmptyString => EmptyString
  end.

Definition is_digit (c : ascii) : bool :=
  ((48 <=? nat_of_ascii c)%nat && (nat_of_ascii c <=? 57)%nat)%bool.

Fixpoint span_digits (s : string) : string * string :=
  match s with
  | String c s' =>
      if is_digit c
      then let (d, r) := span_digits s' in (String c d, r)
      else (EmptyString, s)
  | EmptyString => (EmptyString, EmptyString)
  end.

(** The integer part matched at the start of [s], and what follows it. *)
Definition match_unsigned (s : string) : option (string * string) :=
  match s with
  | String c s' =>
      if Ascii.eqb c "0" then Some (String c EmptyString, s')
      else if is_digit c
      then let (d, r) := span_digits s' in Some (String c d, r)
      else None
  | EmptyString => None
  end.

Definition match_integer (s : string) : option (string * string) :=
  match s with
  | String c s' =>
      if Ascii.eqb c "-"
      then match match_unsigned s' with
           | Some (d, r) => Some (String c d, r)
           | None => None
           end
      else match_unsigned s
  | EmptyString => None
  end.

(** Does a fraction [.d] or an exponent [e±d] follow?  Then the number
    is a float, which is not a [value]. *)
Definition starts_with_digit (s : string) : bool :=
  match s with
  | String c _ => is_digit c
  | EmptyString => false
  end.

Definition float_follows (s : string) : bool :=
  match s with
  | String c s' =>
      if Ascii.eqb c "." then starts_with_digit s'
      else if (Ascii.eqb c "e" || Ascii.eqb c "E")%bool
      then match s' with
           | String c' s'' =>
               if (Ascii.eqb c' "-" || Ascii.eqb c' "+")%bool
               then starts_with_digit s''
               else is_digit c'
           | EmptyString => false
           end
      else false
  | EmptyString => false
  end.

(** [int(text)] for a matched integer part. *)
Definition int_of (text : string) : option Z :=
  Z.of_int <$> NilZero.int_of_string text.

Definition scan_number (s : string) : option (value * string) :=
  match match_integer s with
  | Some (text, r) =>
      if float_follows r then None
      else match int_of text with
           | Some z => Some (Int z, r)
           | None => None
           end
  | None => None
  end.

(** [None] is a [JSONDecodeError], or a value other than an integer or
    an array.  The recursion is bounded by [fuel]; [loads] gives it the
    length of the text, which is enough for every text the encoder writes. *)
Fixpoint scan_once (fuel : nat) (s : string) {struct fuel}
  : option (value * string) :=
  match fuel with
  | O => None
  | S fuel' =>
      match s with
      | String c s1 =>
          if Ascii.eqb c "["
          then match skip_ws s1 with
               | String c' s3 as s2 =>
                   if Ascii.eqb c' "]" then Some (Arr [], s3)
                   else array_loop fuel' s2 []
               | EmptyString => None
               end
          else scan_number s
      | EmptyString => None
      end
  end
with array_loop (fuel : nat) (s : string) (values : list value)
                {struct fuel} : option (value * string) :=
  match fuel with
  | O => None
  | S fuel' =>
      match scan_once fuel' s with
      | Some (v, s1) =>
          let values := values ++ [v] in
          match skip_ws s1 with
          | String c s2 =>
              if Ascii.eqb c "]" then Some (Arr values, s2)
              else if Ascii.eqb c ","
              then array_loop fuel' (skip_ws s2) values
              else None
          | EmptyString => None
          end
      | None => None
      end
  end.

(** [json.loads(s)]: leading white space, one value, trailing white
    space, and nothing else. *)
Definition loads (s : string) : option value :=
  match scan_once (String.length s) (skip_ws s) with
  | Some (v, r) =>
      match skip_ws r with
      | EmptyString => Some v
      | String _ _ => None
      end
  | None => None
  end.

End Json.

(** ** Saving *)

(** What the program uses of music21: a chord is built from a list of
    pitches, a part is the sequence of the chords appended to it, a stream
    the sequence of the parts inserted in it, and [write] turns a stream
    into the content of a file of the requested format, stored under the
    path it is given.  Building a chord only reads the list of pitches. *)
Class Music21 := {
  m21_chord : Type;
  Chord : chord -> m21_chord;
  stream_write : string -> list (list m21_chord) -> string
}.

(** [open(path, "w")] empties the file; [fp.write] appends to it. *)
Definition open_w (path : string) : py unit := write_file path "".

Definition fp_write (path text : string) : py unit :=
  fun m => write_file path (default "" (files m !! path) +:+ text) m.

(** [json.dump(obj, fp, indent=indent)] *)
Definition json_dump (obj : Json.value) (fp : string) (indent : nat)
  : py unit :=
  fp_write fp (Json.dumps obj indent).

Definition enumerate {A} (l : list A) : list (Z * A) :=
  imap (fun i x => (Z.of_nat i, x)) l.

Section Save.
Context `{Music21}.

Definition _save_chord_progression (chord_progression : progression)
    (file_path file_type : string) : py unit :=
  let stream := [] in
  let music21_chords :=
    fold_left (fun acc c => acc ++ [Chord c]) chord_progression [] in
  let part := fold_left (fun acc c => acc ++ [c]) music21_chords [] in
  let stream := stream ++ [part] in
  write_file file_path (stream_write file_type stream).

(** The body of the loop over [enumerate(chord_progressions)]; the local
    variable that survives the loop is [file_path]. *)
Definition save_loop_body (dir_path file_type : string)
    (tot_chord_sequences : Z) (item : Z * progression)
    (_ : option string) : py (option string) :=
  let '(i, chord_progression) := item in
  let file_name := Py.str i +:+ "." +:+ file_type in
  let file_path := Py.path_join dir_path file_name in
  _save_chord_progression chord_progression file_path file_type;;
  (if (i + 1) mod 100 =? 0
   then print ("Saved " +:+ Py.str (i + 1) +:+
               " chord progression out of " +:+
               Py.str tot_chord_sequences)
   else mret tt);;
  mret (Some file_path).

Definition save_chord_progressions (chord_progressions : list progression)
    (dir_path file_type : string) : py unit :=
  let tot_chord_sequences := Z.of_nat (length chord_progressions) in
  file_path ←
    (if (String.eqb file_type "midi" || String.eqb file_type "xml")%bool
     then
       for_each (enumerate chord_progressions)
         (save_loop_body dir_path file_type tot_chord_sequences) None
     else if String.eqb file_type "json"
     then
       let file_path := Py.path_join dir_path "chord_progressions.json" in
       open_w file_path;;
       json_dump (Json.of_progressions chord_progressions) file_path 4;;
       mret (Some file_path)
     else mret None);
  file_path ← read_local "file_path" file_path;
  print ("Successfully saved chord progressions at " +:+ file_path +:+
         Py.nl).

(** The file written for the progression of index [i], and its content. *)
Definition score_path (dir_path file_type : string) (i : nat) : string :=
  Py.path_join dir_path (Py.str (Z.of_nat i) +:+ "." +:+ file_type).

Definition score (file_type : string) (p : progression) : string :=
  stream_write file_type [map Chord p].

(** The files of the loop over the items [l], in the order of writing. *)
Definition scores (dir_path file_type : string) (l : list (Z * progression))
  : list (string * string) :=
  map (fun ip => (Py.path_join dir_path
                    (Py.str ip.1 +:+ "." +:+ file_type),
                  score file_type ip.2)) l.

End Save.

(** ** Notions used in the statements *)

(** The intervals of a chord above its lowest pitch. *)
Definition intervals (c : chord) : list Z :=
  map (fun x => x - foldr Z.min (hd 0 c) c) c.

Definition is_major (c : chord) : bool :=
  bool_decide (intervals c = [0; 4; 7]).
Definition is_minor (c : chord) : bool :=
  bool_decide (intervals c = [0; 3; 7]).

(** What precedes the file name in a joined path. *)
Definition path_stem (dir_path : string) : string :=
  if (String.eqb dir_path "" || Py.ends_with_sep dir_path)%bool
  then dir_path else dir_path +:+ "/".

(** A stand-in for music21 to run the model with: a chord object is its
    list of pitches, and the content of a file is the format followed by
    the parts, written as nested lists. *)
Definition plain_music21 : Music21 :=
  {| m21_chord := chord;
     Chord := fun c => c;
     stream_write := fun file_type parts =>
       file_type +:+ ":" +:+
       Json.dumps (Json.Arr (map Json.of_progression parts)) 0 |}.

(** Two progressions to run the model on. *)
Definition sample_progressions : list progression :=
  [[[48; 52; 55]]; [[49; 53; 56]; [48; 51; 55]]].

(** A computation that leaves the generator object as it found it. *)
Definition keeps_self {A} (c : py A) : Prop :=
  forall m, self (c m).1 = self m.

(** Writing a sequence of files, in order. *)
Definition write_all (ws : list (string * string))
    (fs : gmap string string) : gmap string string :=
  fold_left (fun fs w => <[w.1 := w.2]> fs) ws fs.

Fixpoint all_digits (s : string) : bool :=
  match s with
  | String c s' => Json.is_digit c && all_digits s'
  | EmptyString => true
  end.

(** After the text of an integer: no digit, and no fraction or exponent. *)
Definition number_ends (s : string) : Prop :=
  Json.starts_with_digit s = false /\ Json.float_follows s = false.

(** With fuel for the length of its text, an encoded value is read back,
    whatever follows it, as long as that cannot continue a number. *)
Definition reads_back (indent : nat) (v : Json.value) : Prop :=
  forall level fuel rest,
    (String.length (Json.encode indent level v) <= fuel)%nat ->
    number_ends rest ->
    Json.scan_once fuel (Json.encode indent level v +:+ rest) = Some (v, rest).

(** The first character of an encoded value. *)
Definition value_start (c : ascii) : bool :=
  (Json.is_digit c || Ascii.eqb c "-" || Ascii.eqb c "[")%bool.

(** The items of a list after the first one, as [Json.encode] writes them. *)
Fixpoint encode_rest (indent level : nat) (l : list Json.value) : string :=
  match l with
  | [] => ""
  | x :: l' =>
      ("," +:+ Json.newline_indent indent (S level))
      +:+ Json.encode indent (S level) x +:+ encode_rest indent level l'
  end.

(** ** Where a file is, and what the JSON text looks like

    These follow the words of the specification, not the code: they are
    what the code is compared with. *)

(** [path] names the file [file_name] of the directory [dir_path]: the
    two are separated by one slash, which the name of the directory may
    already end with; without a directory the path is the file name. *)
Definition in_directory (dir_path file_name path : string) : Prop :=
  (dir_path = "" /\ path = file_name) \/
  ((exists d, dir_path = d +:+ "/") /\ path = dir_path +:+ file_name) \/
  (dir_path <> "" /\ (forall d, dir_path <> d +:+ "/") /\
   path = dir_path +:+ "/" +:+ file_name).

(** The decimal writing of an integer. *)
Definition decimal (z : Z) : string := NilZero.string_of_int (Z.to_int z).

(** An array of arrays of arrays of integers, one item a line, every level
    indented by four spaces more than the one around it. *)
Definition pitch_line (z : Z) : string := "            " +:+ decimal z.

Definition chord_lines (c : chord) : string :=
  match c with
  | [] => "        []"
  | _ => "        [
" +:+ String.concat ",
" (map pitch_line c) +:+ "
        ]"
  end.

Definition progression_lines (p : progression) : string :=
  match p with
  | [] => "    []"
  | _ => "    [
" +:+ String.concat ",
" (map chord_lines p) +:+ "
    ]"
  end.

Definition progressions_lines (ps : list progression) : string :=
  match ps with
  | [] => "[]"
  | _ => "[
" +:+ String.concat ",
" (map progression_lines ps) +:+ "
]"
  end.

(** ** The script *)


Section Main.
Context `{Music21}.


End Main.

(** ** The lines printed while saving *)

Definition saved_notice (count tot_chord_sequences : Z) : string :=
  ("Saved " +:+ Py.str count +:+ " chord progression out of " +:+
   Py.str tot_chord_sequences) +:+ Py.nl.

Definition success_notice (file_path : string) : string :=
  ("Successfully saved chord progressions at " +:+ file_path +:+ Py.nl)
  +:+ Py.nl.

(** The progress lines of the loop over the items [l]. *)
Definition progress_of (tot_chord_sequences : Z) (l : list (Z * progression))
  : list string :=
  flat_map (fun ip => if (ip.1 + 1) mod 100 =? 0
                      then [saved_notice (ip.1 + 1) tot_chord_sequences]
                      else []) l.

(** The value of [file_path] after the loop over the items [l]. *)
Definition last_path (dir_path file_type : string) (loc : option string)
    (l : list (Z * progression)) : option string :=
  fold_left (fun _ ip => Some (Py.path_join dir_path
                                 (Py.str ip.1 +:+ "." +:+ file_type))) l loc.

(** * Properties *)

(** ** The model at work *)

Example product_of_two_pools :
  Py.product [[1; 2]; [3; 4]] = [[1; 3]; [1; 4]; [2; 3]; [2; 4]].
Proof. reflexivity. Qed.

Example product_of_no_pool : Py.product (@nil (list Z)) = [[]].
Proof. reflexivity. Qed.

Example path_join_dot : Py.path_join "." "0.midi" = "./0.midi".
Proof. reflexivity. Qed.

Example loads_with_spaces :
  Json.loads " [1 , -20 ,[ ] ] " =
    Some (Json.Arr [Json.Int 1; Json.Int (-20); Json.Arr []]).
Proof. reflexivity. Qed.

Example loads_leading_zero : Json.loads "[1, 02]" = None.
Proof. reflexivity. Qed.

Example loads_trailing_comma : Json.loads "[1,]" = None.
Proof. reflexivity. Qed.

Example save_xml_sample :
  let r := @save_chord_progressions plain_music21 sample_progressions
             "out" "xml" (fresh ∅ []) in
  dom (files r.1) = {["out/0.xml"; "out/1.xml"]} /\
  stdout r.1 = ["Successfully saved chord progressions at out/1.xml"
                +:+ Py.nl +:+ Py.nl] /\
  r.2 = Returned tt.
Proof. vm_compute. repeat split. Qed.

(** ** Loops that only append *)

Lemma fold_left_snoc {A} (l acc : list A) :
  fold_left (fun acc x => acc ++ [x]) l acc = acc ++ l.
Proof.
  revert acc. induction l as [|x l IH]; intros acc; simpl.
  - by rewrite app_nil_r.
  - rewrite IH, <- app_assoc. reflexivity.
Qed.

Lemma fold_left_snoc_map {A B} (f : A -> B) (l : list A) (acc : list B) :
  fold_left (fun acc x => acc ++ [f x]) l acc = acc ++ map f l.
Proof.
  revert acc. induction l as [|x l IH]; intros acc; simpl.
  - by rewrite app_nil_r.
  - rewrite IH, <- app_assoc. reflexivity.
Qed.

Lemma map_const_seq {A} (x : A) (f : nat -> Z) (a n : nat) :
  map (fun _ => x) (map f (seq a n)) = replicate n x.
Proof.
  revert a. induction n as [|n IH]; intros a; simpl; [done|].
  by rewrite IH.
Qed.

Lemma map_const_range {A} (x : A) (n : Z) :
  map (fun _ => x) (Py.range n) = replicate (Z.to_nat n) x.
Proof.
  unfold Py.range, Py.range2. rewrite Z.sub_0_r. apply map_const_seq.
Qed.

(** ** The cartesian product *)

Section Product.
#[local] Open Scope nat_scope.
Context {A : Type}.
Implicit Types (pool : list A) (r : list (list A)).

Lemma product_step_length r pool :
  length (Py.product_step r pool) = length r * length pool.
Proof.
  unfold Py.product_step. induction r as [|x r IH]; simpl; [done|].
  rewrite length_app, length_map, IH. reflexivity.
Qed.

Lemma product_step_Forall r pool n :
  Forall (fun p => length p = n) r ->
  Forall (fun p => length p = S n) (Py.product_step r pool).
Proof.
  unfold Py.product_step. induction 1 as [|x r Hx _ IH]; simpl.
  - constructor.
  - apply Forall_app. split; [|exact IH].
    apply Forall_forall. intros p Hp.
    apply list_elem_of_In, in_map_iff in Hp as (y & <- & _).
    rewrite length_app, Hx. simpl. lia.
Qed.

Lemma div_mod_shift k n :
  n <= k -> 0 < n -> k / n = S ((k - n) / n) /\ k mod n = (k - n) mod n.
Proof.
  intros Hk Hn.
  replace k with ((k - n) + 1 * n) at 1 3 by lia.
  rewrite Nat.div_add, Nat.Div0.mod_add by lia. split; lia.
Qed.

(** Entry [k] of one more round of the product: entry [k / |pool|] of
    the previous round, followed by element [k mod |pool|] of the pool. *)
Lemma product_step_lookup r pool k :
  0 < length pool ->
  Py.product_step r pool !! k =
    match r !! (k / length pool), pool !! (k mod length pool) with
    | Some x, Some y => Some (x ++ [y])
    | _, _ => None
    end.
Proof.
  intros Hpool. unfold Py.product_step.
  revert k. induction r as [|x r IH]; intros k; simpl.
  - by rewrite !lookup_nil.
  - destruct (decide (k < length pool)) as [Hlt|Hge].
    + rewrite lookup_app_l by (by rewrite length_map).
      rewrite Nat.div_small, Nat.mod_small by done. simpl.
      clear IH Hpool. revert k Hlt.
      induction pool as [|y pool IHp]; intros [|k] Hlt; simpl in *;
        try lia; [done|].
      apply IHp. lia.
    + rewrite lookup_app_r by (rewrite length_map; lia).
      rewrite length_map, IH.
      destruct (div_mod_shift k (length pool)) as [-> ->]; [lia|done|].
      reflexivity.
Qed.

Lemma product_replicate_S n pool :
  Py.product (replicate (S n) pool) =
  Py.product_step (Py.product (replicate n pool)) pool.
Proof.
  unfold Py.product. rewrite replicate_S_end, fold_left_app. reflexivity.
Qed.

Lemma product_replicate_length n pool :
  length (Py.product (replicate n pool)) = length pool ^ n.
Proof.
  induction n as [|n IH]; [done|].
  rewrite product_replicate_S, product_step_length, IH.
  rewrite Nat.pow_succ_r'. lia.
Qed.

Lemma product_replicate_Forall n pool :
  Forall (fun p => length p = n) (Py.product (replicate n pool)).
Proof.
  induction n as [|n IH].
  - repeat constructor.
  - rewrite product_replicate_S. by apply product_step_Forall.
Qed.

(** Position [p] of entry [k] is digit [p] of [k] written in base
    [|pool|] with [n] digits, most significant first. *)
Lemma product_replicate_lookup n pool k :
  0 < length pool -> k < length pool ^ n ->
  exists prog,
    Py.product (replicate n pool) !! k = Some prog /\
    length prog = n /\
    forall p, p < n ->
      prog !! p = pool !! ((k / length pool ^ (n - 1 - p)) mod length pool).
Proof.
  intros Hpool. revert k. induction n as [|n IH]; intros k Hk.
  - exists []. simpl in Hk. assert (k = 0) as -> by lia.
    split; [reflexivity|]. split; [reflexivity|]. intros; lia.
  - rewrite Nat.pow_succ_r' in Hk.
    destruct (IH (k / length pool)) as (prog & Hprog & Hlen & Hpos).
    { apply Nat.Div0.div_lt_upper_bound. lia. }
    destruct (lookup_lt_is_Some_2 pool (k mod length pool)) as [y Hy].
    { apply Nat.mod_upper_bound. lia. }
    exists (prog ++ [y]).
    rewrite product_replicate_S, product_step_lookup, Hprog, Hy by done.
    split; [done|]. split; [rewrite length_app, Hlen; simpl; lia|].
    intros p Hp. destruct (decide (p = n)) as [->|Hne].
    + rewrite lookup_app_r, Hlen, Nat.sub_diag by lia. simpl.
      replace (n - 0 - n) with 0 by lia.
      by rewrite Nat.pow_0_r, Nat.div_1_r.
    + rewrite lookup_app_l by lia. rewrite Hpos by lia.
      replace (S n - 1 - p) with (S (n - 1 - p)) by lia.
      by rewrite Nat.pow_succ_r', Nat.Div0.div_div.
Qed.

End Product.

(** ** What the enumeration computes *)

Lemma generate_chord_progressions_eq (num_chords : Z) (m : machine) :
  generate_chord_progressions num_chords m =
    ({| self := self m; files := files m;
        stdout := stdout m ++ [brute_forced_notice num_chords +:+ Py.nl] |},
     Returned (Py.product (replicate (Z.to_nat num_chords)
                                     (chord_templates (self m))))).
Proof.
  unfold generate_chord_progressions, mbind, py_bind, get_self, print, mret,
    py_ret. simpl.
  rewrite fold_left_snoc, map_const_range. reflexivity.
Qed.

Lemma chord_templates_length : length (chord_templates __init__) = 24%nat.
Proof. reflexivity. Qed.

(** ** The vocabulary *)

(** C2: the vocabulary built by the constructor has 24 templates; template
    [i], for [i] from 0 to 11, is the major triad [48+i, 52+i, 55+i] and
    template [12+i] the minor triad [48+i, 51+i, 55+i].  So every template
    has the intervals 0, 4, 7 or 0, 3, 7 above its lowest pitch, there are
    12 of each quality, the roots of each dozen are the consecutive values
    48 to 59, and no template occurs twice. *)
Theorem vocabulary_spec :
  length (chord_templates __init__) = 24%nat /\
  (forall i : nat, (i < 12)%nat ->
     chord_templates __init__ !! i =
       Some [48 + Z.of_nat i; 52 + Z.of_nat i; 55 + Z.of_nat i] /\
     chord_templates __init__ !! (12 + i)%nat =
       Some [48 + Z.of_nat i; 51 + Z.of_nat i; 55 + Z.of_nat i]) /\
  Forall (fun c => is_major c = true \/ is_minor c = true)
         (chord_templates __init__) /\
  length (filter (fun c => is_major c = true) (chord_templates __init__))
    = 12%nat /\
  length (filter (fun c => is_minor c = true) (chord_templates __init__))
    = 12%nat /\
  map (hd 0) (take 12 (chord_templates __init__)) = Py.range2 48 60 /\
  map (hd 0) (drop 12 (chord_templates __init__)) = Py.range2 48 60 /\
  NoDup (chord_templates __init__).
Proof.
  split; [reflexivity|]. split.
  { intros i Hi.
    do 12 (destruct i as [|i]; [split; reflexivity|]). lia. }
  split.
  { unfold __init__, chord_templates; simpl.
    repeat (apply List.Forall_cons;
            [first [left; reflexivity | right; reflexivity]|]).
    apply List.Forall_nil. }
  split; [reflexivity|]. split; [reflexivity|].
  split; [reflexivity|]. split; [reflexivity|].
  apply (bool_decide_unpack _). vm_compute. exact I.
Qed.

(** ** The enumeration *)

Lemma vocabulary_power (n : Z) :
  0 <= n -> Z.of_nat (24 ^ Z.to_nat n) = 24 ^ n.
Proof.
  intros Hn. rewrite Nat2Z.inj_pow, Z2Nat.id by done. reflexivity.
Qed.

(** C1: for a positive [num_chords] the call returns [24 ^ num_chords]
    progressions, each of [num_chords] chords. *)
Theorem generate_count (fs : gmap string string) (out : list string)
    (num_chords : Z) :
  0 < num_chords ->
  exists ps,
    result (generate_chord_progressions num_chords (fresh fs out)) = Some ps /\
    Z.of_nat (length ps) = 24 ^ num_chords /\
    Forall (fun p => Z.of_nat (length p) = num_chords) ps.
Proof.
  intros Hn. rewrite generate_chord_progressions_eq.
  unfold result, fresh. cbn [snd self].
  eexists. split; [reflexivity|]. split.
  - rewrite product_replicate_length, chord_templates_length.
    apply vocabulary_power. lia.
  - eapply Forall_impl; [apply product_replicate_Forall|].
    intros p Hp. simpl in Hp. rewrite Hp. apply Z2Nat.id. lia.
Qed.

Lemma generate_count_witness :
  exists ps,
    result (generate_chord_progressions 2 (fresh ∅ [])) = Some ps /\
    Z.of_nat (length ps) = 24 ^ 2 /\
    Forall (fun p => Z.of_nat (length p) = 2) ps.
Proof. apply (generate_count ∅ [] 2). lia. Defined.

Lemma generate_lookup (m : machine) (num_chords : Z) (k : nat) :
  self m = __init__ ->
  (k < 24 ^ Z.to_nat num_chords)%nat ->
  exists ps prog,
    result (generate_chord_progressions num_chords m) = Some ps /\
    ps !! k = Some prog /\
    length prog = Z.to_nat num_chords /\
    forall p : nat, (p < Z.to_nat num_chords)%nat ->
      prog !! p =
      chord_templates __init__
        !! ((k / 24 ^ (Z.to_nat num_chords - 1 - p)) mod 24)%nat.
Proof.
  intros Hself Hk. rewrite generate_chord_progressions_eq, Hself.
  unfold result. cbn [snd].
  destruct (product_replicate_lookup (Z.to_nat num_chords)
              (chord_templates __init__) k) as (prog & Hprog & Hlen & Hpos).
  - rewrite chord_templates_length. lia.
  - by rewrite chord_templates_length.
  - exists (Py.product (replicate (Z.to_nat num_chords)
                                  (chord_templates __init__))), prog.
    rewrite chord_templates_length in Hpos. auto.
Qed.

(** For two chords: entry [k] is the pair of the templates [k / 24] and
    [k mod 24]. *)
Lemma generate_order_two (fs : gmap string string) (out : list string)
    (k : nat) :
  (k < 576)%nat ->
  exists ps a b,
    result (generate_chord_progressions 2 (fresh fs out)) = Some ps /\
    chord_templates __init__ !! (k / 24)%nat = Some a /\
    chord_templates __init__ !! (k mod 24)%nat = Some b /\
    ps !! k = Some [a; b].
Proof.
  intros Hk.
  destruct (generate_lookup (fresh fs out) 2 k)
    as (ps & prog & Hps & Hprog & Hlen & Hpos); [done|exact Hk|].
  change (Z.to_nat 2) with 2%nat in *.
  destruct prog as [|a [|b [|c prog]]]; try discriminate Hlen.
  assert (H0 := Hpos 0%nat ltac:(lia)). assert (H1 := Hpos 1%nat ltac:(lia)).
  change ([a; b] !! 0%nat) with (Some a) in H0.
  change ([a; b] !! 1%nat) with (Some b) in H1.
  change (2 - 1 - 0)%nat with 1%nat in H0.
  change (2 - 1 - 1)%nat with 0%nat in H1.
  rewrite Nat.pow_1_r, Nat.mod_small in H0
    by (apply Nat.Div0.div_lt_upper_bound; lia).
  rewrite Nat.pow_0_r, Nat.div_1_r in H1.
  exists ps, a, b. auto.
Qed.

(** C3: the progressions come in the order of the cartesian product, the
    leftmost position varying slowest: for a positive [num_chords], the
    progression at index [k] has at position [p] the template of index
    [(k / 24 ^ (num_chords - 1 - p)) mod 24]; for two chords it is the pair
    of the templates of index [k / 24] and [k mod 24]. *)
Theorem generate_order (fs : gmap string string) (out : list string)
    (num_chords : Z) (k p : nat) :
  0 < num_chords ->
  Z.of_nat k < 24 ^ num_chords ->
  Z.of_nat p < num_chords ->
  exists ps prog,
    result (generate_chord_progressions num_chords (fresh fs out)) = Some ps /\
    ps !! k = Some prog /\
    Z.of_nat (length prog) = num_chords /\
    prog !! p =
      chord_templates __init__
        !! Z.to_nat ((Z.of_nat k / 24 ^ (num_chords - 1 - Z.of_nat p))
                     mod 24) /\
    (num_chords = 2 ->
     exists a b,
       chord_templates __init__ !! (k / 24)%nat = Some a /\
       chord_templates __init__ !! (k mod 24)%nat = Some b /\
       prog = [a; b]).
Proof.
  intros Hn Hk Hp.
  destruct (generate_lookup (fresh fs out) num_chords k)
    as (ps & prog & Hps & Hprog & Hlen & Hpos); [done| |].
  { apply Nat2Z.inj_lt. rewrite vocabulary_power by lia. done. }
  exists ps, prog. split; [done|]. split; [done|]. split; [|split].
  - rewrite Hlen. apply Z2Nat.id. lia.
  - rewrite Hpos by lia. f_equal.
    rewrite <- (Nat2Z.id (_ mod _)%nat). f_equal.
    rewrite Nat2Z.inj_mod, Nat2Z.inj_div, Nat2Z.inj_pow.
    do 2 f_equal. simpl. f_equal. lia.
  - intros ->.
    destruct (generate_order_two fs out k)
      as (ps' & a & b & Hps' & Ha & Hb & Hab).
    { change (24 ^ 2) with 576 in Hk. lia. }
    exists a, b. split; [done|]. split; [done|].
    rewrite Hps in Hps'. injection Hps' as <-. congruence.
Qed.

Lemma generate_order_witness :
  exists ps prog,
    result (generate_chord_progressions 2 (fresh ∅ [])) = Some ps /\
    ps !! 100%nat = Some prog /\
    Z.of_nat (length prog) = 2 /\
    prog !! 1%nat =
      chord_templates __init__
        !! Z.to_nat ((Z.of_nat 100 / 24 ^ (2 - 1 - Z.of_nat 1)) mod 24) /\
    (2 = 2 ->
     exists a b,
       chord_templates __init__ !! (100 / 24)%nat = Some a /\
       chord_templates __init__ !! (100 mod 24)%nat = Some b /\
       prog = [a; b]).
Proof. apply (generate_order ∅ [] 2 100 1); reflexivity. Defined.


(** C9: for [num_chords] zero or negative the call does not fail and
    returns one progression, the empty one. *)
Theorem generate_nonpositive (m : machine) (num_chords : Z) :
  num_chords <= 0 ->
  generate_chord_progressions num_chords m =
    ({| self := self m; files := files m;
        stdout := stdout m ++ [brute_forced_notice num_chords +:+ Py.nl] |},
     Returned [[]]).
Proof.
  intros Hn. rewrite generate_chord_progressions_eq.
  replace (Z.to_nat num_chords) with 0%nat by lia. reflexivity.
Qed.

Lemma generate_nonpositive_witness :
  generate_chord_progressions (-3) (fresh ∅ []) =
    ({| self := __init__; files := ∅;
        stdout := [brute_forced_notice (-3) +:+ Py.nl] |},
     Returned [[]]).
Proof. apply (generate_nonpositive (fresh ∅ []) (-3)). lia. Defined.

(** ** The generator object is only read *)

Create HintDb frame.

Lemma keeps_self_ret {A} (a : A) : keeps_self (mret a).
Proof. intros m. reflexivity. Qed.

Lemma keeps_self_raise {A} (e : exn) : keeps_self (@raise A e).
Proof. intros m. reflexivity. Qed.

Lemma keeps_self_get_self : keeps_self get_self.
Proof. intros m. reflexivity. Qed.

Lemma keeps_self_print (s : string) : keeps_self (print s).
Proof. intros m. reflexivity. Qed.

Lemma keeps_self_write_file (path content : string) :
  keeps_self (write_file path content).
Proof. intros m. reflexivity. Qed.

Lemma keeps_self_fp_write (path text : string) :
  keeps_self (fp_write path text).
Proof. intros m. reflexivity. Qed.

Lemma keeps_self_read_local {A} (name : string) (v : option A) :
  keeps_self (read_local name v).
Proof. destruct v; intros m; reflexivity. Qed.

Lemma keeps_self_bind {A B} (c : py A) (k : A -> py B) :
  keeps_self c -> (forall a, keeps_self (k a)) -> keeps_self (c ≫= k).
Proof.
  intros Hc Hk m. unfold mbind, py_bind. specialize (Hc m).
  destruct (c m) as [m' [a|e]]; simpl in *; [|done].
  by rewrite Hk.
Qed.

Lemma keeps_self_for_each {A L} (xs : list A) (body : A -> L -> py L)
    (l : L) :
  (forall x l, keeps_self (body x l)) -> keeps_self (for_each xs body l).
Proof.
  intros Hbody. revert l. induction xs as [|x xs IH]; intros l; simpl.
  - apply keeps_self_ret.
  - apply keeps_self_bind; auto.
Qed.

#[global] Hint Resolve keeps_self_ret keeps_self_raise keeps_self_get_self
  keeps_self_print keeps_self_write_file keeps_self_fp_write
  keeps_self_read_local keeps_self_bind keeps_self_for_each : frame.

Lemma keeps_self_generate (num_chords : Z) :
  keeps_self (generate_chord_progressions num_chords).
Proof. intros m. by rewrite generate_chord_progressions_eq. Qed.

Section SaveFrame.
Context `{Music21}.

Lemma keeps_self_save_loop_body dir_path file_type tot item loc :
  keeps_self (save_loop_body dir_path file_type tot item loc).
Proof.
  destruct item as [i p]. unfold save_loop_body, _save_chord_progression.
  apply keeps_self_bind; [auto with frame|]. intros _.
  apply keeps_self_bind; [|auto with frame].
  destruct (_ =? _); auto with frame.
Qed.

Lemma keeps_self_save ps dir_path file_type :
  keeps_self (save_chord_progressions ps dir_path file_type).
Proof.
  unfold save_chord_progressions, open_w, json_dump.
  apply keeps_self_bind.
  - destruct (_ || _)%bool.
    + apply keeps_self_for_each. intros. apply keeps_self_save_loop_body.
    + destruct (String.eqb _ _); auto 10 with frame.
  - intros loc. auto with frame.
Qed.

End SaveFrame.

(** C8: the vocabulary, and the two interval patterns, are the same after
    a call of [generate_chord_progressions] or of [save_chord_progressions]
    as before it, whatever the arguments. *)
Theorem vocabulary_unchanged `{Music21} (m : machine) (num_chords : Z)
    (ps : list progression) (dir_path file_type : string) :
  self (generate_chord_progressions num_chords m).1 = self m /\
  self (save_chord_progressions ps dir_path file_type m).1 = self m.
Proof.
  split; [apply keeps_self_generate | apply keeps_self_save].
Qed.

(** ** Saving with an unknown format, or nothing to save *)

(** C10: when the format is none of "midi", "xml" and "json", or when it
    is "midi" or "xml" and there is no progression, [file_path] is never
    assigned: the call raises on the last line, and no file has been written
    nor anything printed. *)
Theorem save_unbound_file_path `{Music21} (ps : list progression)
    (dir_path file_type : string) (m : machine) :
  (file_type <> "midi" /\ file_type <> "xml" /\ file_type <> "json") \/
  ((file_type = "midi" \/ file_type = "xml") /\ ps = []) ->
  save_chord_progressions ps dir_path file_type m =
    (m, Raised (UnboundLocalError "file_path")).
Proof.
  intros [(Hmidi & Hxml & Hjson)|[[->| ->] ->]].
  - apply String.eqb_neq in Hmidi, Hxml, Hjson.
    unfold save_chord_progressions. rewrite Hmidi, Hxml, Hjson. reflexivity.
  - reflexivity.
  - reflexivity.
Qed.

Lemma save_unbound_file_path_witness :
  @save_chord_progressions plain_music21 sample_progressions "out" "wav"
    (fresh ∅ []) =
    (fresh ∅ [], Raised (UnboundLocalError "file_path")).
Proof.
  apply (@save_unbound_file_path plain_music21 sample_progressions "out"
           "wav" (fresh ∅ [])).
  left. repeat split; discriminate.
Defined.

(** ** Strings and the text of integers *)

#[local] Arguments String.append !_ _ : simpl nomatch.

Lemma string_app_assoc (a b c : string) :
  (a +:+ b) +:+ c = a +:+ (b +:+ c).
Proof. induction a as [|x a IH]; simpl; [done|]. by rewrite IH. Qed.

Lemma string_app_nil_r (a : string) : a +:+ "" = a.
Proof. induction a as [|x a IH]; simpl; [done|]. by rewrite IH. Qed.

Lemma string_length_app (a b : string) :
  String.length (a +:+ b) = (String.length a + String.length b)%nat.
Proof. induction a as [|x a IH]; simpl; [done|]. by rewrite IH. Qed.

Lemma string_app_inv_head (a x y : string) : a +:+ x = a +:+ y -> x = y.
Proof.
  induction a as [|c a IH]; simpl; [done|]. intros [= Heq]. by apply IH.
Qed.

Lemma all_digits_uint (d : uint) :
  all_digits (NilEmpty.string_of_uint d) = true.
Proof. induction d; simpl; auto. Qed.

Lemma span_digits_app (s r : string) :
  all_digits s = true -> Json.starts_with_digit r = false ->
  Json.span_digits (s +:+ r) = (s, r).
Proof.
  intros Hs Hr. induction s as [|c s IH]; simpl in *.
  - destruct r as [|c r]; simpl in *; [done|]. by rewrite Hr.
  - apply andb_prop in Hs as [Hc Hs]. by rewrite Hc, IH.
Qed.

(** The digits of a positive number: at least one, and the first is not
    a zero. *)
Lemma pos_text (p : positive) :
  exists c s,
    NilZero.string_of_uint (Pos.to_uint p) = String c s /\
    Json.is_digit c = true /\ Ascii.eqb c "0" = false /\
    Ascii.eqb c "-" = false /\ all_digits s = true.
Proof.
  pose proof (DecimalPos.Unsigned.to_uint_nonnil p) as Hnil.
  pose proof (DecimalPos.Unsigned.to_uint_nonzero p) as Hzero.
  pose proof (DecimalPos.Unsigned.to_of (Pos.to_uint p)) as Hnorm.
  rewrite DecimalPos.Unsigned.of_to in Hnorm. simpl in Hnorm.
  destruct (Pos.to_uint p) as [|d|d|d|d|d|d|d|d|d|d] eqn:Hd;
    try (eexists _, _; split; [reflexivity|];
         repeat split; try reflexivity; apply all_digits_uint).
  - done.
  - exfalso. rewrite DecimalFacts.unorm_D0 in Hnorm. unfold unorm in Hnorm.
    destruct (nzhead d) eqn:Hhead; try done;
      by eapply (DecimalFacts.nzhead_nonzero d); rewrite Hhead, <- Hnorm.
Qed.

Lemma str_nonneg (z : Z) :
  0 <= z ->
  exists c s, Py.str z = String c s /\ Json.is_digit c = true /\
              all_digits s = true.
Proof.
  intros Hz. destruct z as [|p|p]; [| |lia].
  - by exists "0"%char, "".
  - destruct (pos_text p) as (c & s & Hs & Hc & _ & _ & Hall).
    exists c, s. auto.
Qed.

Lemma str_inj (x y : Z) : Py.str x = Py.str y -> x = y.
Proof.
  unfold Py.str. intros Heq. apply DecimalZ.to_int_inj.
  assert (forall z, NilZero.int_of_string (NilZero.string_of_int (Z.to_int z))
                    = Some (Z.to_int z)) as Hisi.
  { intros z. apply NilZero.isi.
    - destruct z; simpl; try done. intros [= Hp].
      by apply (DecimalPos.Unsigned.to_uint_nonnil p).
    - destruct z; simpl; try done. intros [= Hp].
      by apply (DecimalPos.Unsigned.to_uint_nonnil p). }
  pose proof (Hisi x) as Hx. rewrite Heq, Hisi in Hx. congruence.
Qed.

Lemma int_of_str (z : Z) : Json.int_of (Py.str z) = Some z.
Proof.
  unfold Json.int_of, Py.str. rewrite NilZero.isi.
  - simpl. by rewrite DecimalZ.of_to.
  - destruct z; simpl; try done. intros [= Hp].
    by apply (DecimalPos.Unsigned.to_uint_nonnil p).
  - destruct z; simpl; try done. intros [= Hp].
    by apply (DecimalPos.Unsigned.to_uint_nonnil p).
Qed.

(** ** Files written one after the other *)

Lemma write_all_lookup_notin (ws : list (string * string))
    (fs : gmap string string) (k : string) :
  k ∉ ws.*1 -> write_all ws fs !! k = fs !! k.
Proof.
  revert fs. induction ws as [|[k' v] ws IH]; intros fs Hk; [done|].
  rewrite fmap_cons in Hk. apply not_elem_of_cons in Hk as [Hne Hk].
  unfold write_all in *. simpl. rewrite IH by done.
  by apply lookup_insert_ne.
Qed.

Lemma write_all_lookup (ws : list (string * string))
    (fs : gmap string string) (i : nat) (k v : string) :
  NoDup ws.*1 -> ws !! i = Some (k, v) -> write_all ws fs !! k = Some v.
Proof.
  revert fs i. induction ws as [|[k' v'] ws IH]; intros fs i Hnd Hi.
  - by rewrite lookup_nil in Hi.
  - rewrite fmap_cons in Hnd. apply NoDup_cons in Hnd as [Hk' Hnd].
    destruct i as [|i]; simpl in Hi.
    + injection Hi as -> ->. change (write_all ((k, v) :: ws) fs)
        with (write_all ws (<[k:=v]> fs)).
      rewrite write_all_lookup_notin by done. apply lookup_insert_eq.
    + change (write_all ((k', v') :: ws) fs)
        with (write_all ws (<[k':=v']> fs)). by eapply IH.
Qed.

Lemma write_all_dom (ws : list (string * string))
    (fs : gmap string string) :
  dom (write_all ws fs) = list_to_set ws.*1 ∪ dom fs.
Proof.
  revert fs. induction ws as [|[k v] ws IH]; intros fs.
  - simpl. by rewrite (left_id_L ∅ (∪)).
  - change (write_all ((k, v) :: ws) fs) with (write_all ws (<[k:=v]> fs)).
    rewrite IH, dom_insert_L, fmap_cons. simpl.
    by rewrite (assoc_L (∪)), (comm_L (∪) _ {[k]}).
Qed.

(** ** One file per progression *)

Lemma digit_not_sep (c : ascii) :
  Json.is_digit c = true -> Ascii.eqb c "/" = false.
Proof.
  intros Hc. destruct (Ascii.eqb_spec c "/") as [->|]; [|done].
  discriminate Hc.
Qed.

Section SaveScores.
Context `{Music21}.
Variables (dir_path file_type : string).

Lemma score_path_eq (i : nat) :
  score_path dir_path file_type i =
    path_stem dir_path +:+ Py.str (Z.of_nat i) +:+ "." +:+ file_type.
Proof.
  unfold score_path, Py.path_join, path_stem.
  destruct (str_nonneg (Z.of_nat i)) as (c & s & -> & Hc & _); [lia|].
  simpl. rewrite (digit_not_sep c Hc).
  destruct (_ || _)%bool; [done|].
  by rewrite string_app_assoc.
Qed.

Lemma score_path_inj : Inj (=) (=) (score_path dir_path file_type).
Proof.
  intros i j Heq. rewrite !score_path_eq in Heq.
  apply String.app_inj in Heq.
  apply (f_equal Json.span_digits) in Heq.
  destruct (str_nonneg (Z.of_nat i)) as (ci & si & Hi & Hci & Hsi); [lia|].
  destruct (str_nonneg (Z.of_nat j)) as (cj & sj & Hj & Hcj & Hsj); [lia|].
  rewrite !span_digits_app in Heq;
    try done; try (rewrite ?Hi, ?Hj; simpl; by rewrite ?Hci, ?Hcj).
  injection Heq as Heq. apply str_inj in Heq. lia.
Qed.

Lemma save_loop_body_eq tot i p loc m :
  exists out',
    save_loop_body dir_path file_type tot (i, p) loc m =
      ({| self := self m;
          files := <[Py.path_join dir_path
                       (Py.str i +:+ "." +:+ file_type)
                     := score file_type p]> (files m);
          stdout := stdout m ++ out' |},
       Returned (Some (Py.path_join dir_path
                         (Py.str i +:+ "." +:+ file_type)))).
Proof.
  unfold save_loop_body, _save_chord_progression, score.
  rewrite fold_left_snoc, fold_left_snoc_map. simpl.
  unfold mbind, py_bind, write_file, print, mret, py_ret.
  destruct (_ =? _); simpl.
  - eexists. reflexivity.
  - exists []. by rewrite app_nil_r.
Qed.

Lemma save_loop_eq tot l loc m :
  exists out' loc',
    for_each l (save_loop_body dir_path file_type tot) loc m =
      ({| self := self m;
          files := write_all (scores dir_path file_type l) (files m);
          stdout := stdout m ++ out' |}, Returned loc').
Proof.
  revert loc m. induction l as [|[i p] l IH]; intros loc m.
  - exists [], loc. simpl. rewrite app_nil_r. by destruct m.
  - cbn [for_each]. unfold mbind, py_bind.
    destruct (save_loop_body_eq tot i p loc m) as (out1 & ->).
    destruct (IH (Some (Py.path_join dir_path
                          (Py.str i +:+ "." +:+ file_type)))
                {| self := self m;
                   files := <[Py.path_join dir_path
                                (Py.str i +:+ "." +:+ file_type)
                              := score file_type p]> (files m);
                   stdout := stdout m ++ out1 |}) as (out2 & loc' & ->).
    exists (out1 ++ out2), loc'. simpl. by rewrite app_assoc.
Qed.

Lemma scores_enumerate_lookup (ps : list progression) (i : nat) :
  scores dir_path file_type (enumerate ps) !! i =
    (fun p => (score_path dir_path file_type i, score file_type p))
      <$> ps !! i.
Proof.
  unfold scores, enumerate.
  change (map ?f ?l) with (f <$> l).
  rewrite list_lookup_fmap, list_lookup_imap.
  by destruct (ps !! i).
Qed.

Lemma scores_enumerate_names (ps : list progression) :
  (scores dir_path file_type (enumerate ps)).*1 =
    score_path dir_path file_type <$> seq 0 (length ps).
Proof.
  apply list_eq. intros i.
  rewrite !list_lookup_fmap, scores_enumerate_lookup.
  destruct (ps !! i) as [p|] eqn:Hp; simpl.
  - apply lookup_lt_Some in Hp. by rewrite lookup_seq_lt.
  - apply lookup_ge_None in Hp. by rewrite lookup_seq_ge.
Qed.

Lemma save_scores_files (ps : list progression) (m : machine) :
  file_type = "midi" \/ file_type = "xml" ->
  files (save_chord_progressions ps dir_path file_type m).1 =
    write_all (scores dir_path file_type (enumerate ps)) (files m).
Proof.
  intros Hft. unfold save_chord_progressions.
  assert ((String.eqb file_type "midi" || String.eqb file_type "xml")%bool
          = true) as ->.
  { destruct Hft as [-> | ->]; reflexivity. }
  unfold mbind at 1. unfold py_bind.
  destruct (save_loop_eq (Z.of_nat (length ps)) (enumerate ps) None m)
    as (out' & loc' & ->).
  destruct loc' as [path|]; reflexivity.
Qed.

End SaveScores.

(** ** The place of a joined path *)

Lemma ends_with_sep_spec (s : string) :
  Py.ends_with_sep s = true <-> exists d, s = d +:+ "/".
Proof.
  induction s as [|c s IH].
  - split; [discriminate|]. intros [[|c d] Hd]; discriminate Hd.
  - destruct s as [|c' s'].
    + cbn [Py.ends_with_sep]. split.
      * intros Hc. apply Ascii.eqb_eq in Hc as ->. by exists "".
      * intros [[|c0 d] Hd]; simpl in Hd.
        -- injection Hd as ->. reflexivity.
        -- injection Hd as _ Hd. destruct d; discriminate Hd.
    + change (Py.ends_with_sep (String c (String c' s')))
        with (Py.ends_with_sep (String c' s')).
      rewrite IH. split.
      * intros [d Hd]. exists (String c d). simpl. by rewrite Hd.
      * intros [[|c0 d] Hd]; simpl in Hd; [discriminate Hd|].
        injection Hd as _ Hd. by exists d.
Qed.

Lemma path_join_in_directory (dir_path file_name : string) :
  Py.starts_with_sep file_name = false ->
  in_directory dir_path file_name (Py.path_join dir_path file_name).
Proof.
  intros Hname. unfold Py.path_join, in_directory. rewrite Hname.
  destruct (String.eqb_spec dir_path "") as [->|Hdir]; [by left|].
  right. cbn [orb].
  destruct (Py.ends_with_sep dir_path) eqn:Hsep.
  - left. split; [|done]. by apply ends_with_sep_spec.
  - right. split; [done|]. split; [|done].
    intros d Hd. assert (Py.ends_with_sep dir_path = true) as Htrue.
    { apply ends_with_sep_spec. by exists d. }
    congruence.
Qed.

Lemma score_path_in_directory (dir_path file_type : string) (i : nat) :
  in_directory dir_path (decimal (Z.of_nat i) +:+ "." +:+ file_type)
    (score_path dir_path file_type i).
Proof.
  apply path_join_in_directory.
  change (decimal (Z.of_nat i)) with (Py.str (Z.of_nat i)).
  destruct (str_nonneg (Z.of_nat i)) as (c & t & -> & Hc & _); [lia|].
  simpl. by apply digit_not_sep.
Qed.

(** C5: saving [K] progressions as "midi" or "xml" writes [K] files, one
    for each index from [0] to [K - 1]; the file of index [i] is in the
    destination directory and its name is [i] in decimal, a dot and the
    format; it holds the score of the progression of that index; no other
    file is created or changed. *)
Theorem save_one_file_per_progression `{Music21} (ps : list progression)
    (dir_path file_type : string) (m : machine) :
  file_type = "midi" \/ file_type = "xml" ->
  let m' := (save_chord_progressions ps dir_path file_type m).1 in
  let names := score_path dir_path file_type <$> seq 0 (length ps) in
  NoDup names /\
  length names = length ps /\
  (forall i p, ps !! i = Some p ->
     files m' !! score_path dir_path file_type i = Some (score file_type p)) /\
  (forall path, path ∉ names -> files m' !! path = files m !! path) /\
  dom (files m') = list_to_set names ∪ dom (files m) /\
  (forall i : nat,
     in_directory dir_path (decimal (Z.of_nat i) +:+ "." +:+ file_type)
       (score_path dir_path file_type i)).
Proof.
  intros Hft m' names.
  assert (NoDup names) as Hnd.
  { apply (NoDup_fmap_2 _ (Inj0 := score_path_inj dir_path file_type)).
    apply NoDup_seq. }
  assert (files m' = write_all (scores dir_path file_type (enumerate ps))
                               (files m)) as Hfiles.
  { by apply save_scores_files. }
  pose proof (scores_enumerate_names dir_path file_type ps) as Hnames.
  fold names in Hnames.
  split; [done|]. split.
  { unfold names. by rewrite length_fmap, length_seq. }
  split; [|split; [|split]].
  - intros i p Hp. rewrite Hfiles.
    apply (write_all_lookup _ _ i); [by rewrite Hnames|].
    by rewrite scores_enumerate_lookup, Hp.
  - intros path Hpath. rewrite Hfiles.
    apply write_all_lookup_notin. by rewrite Hnames.
  - by rewrite Hfiles, write_all_dom, Hnames.
  - apply score_path_in_directory.
Qed.

(** Two progressions saved as "midi" in [out], from an empty disk: the
    files are [out/0.midi] and [out/1.midi], and no other. *)
Lemma save_one_file_per_progression_witness :
  let m' := (@save_chord_progressions plain_music21 sample_progressions
               "out" "midi" (fresh ∅ [])).1 in
  (NoDup ["out/0.midi"; "out/1.midi"] /\
   length ["out/0.midi"; "out/1.midi"] = 2%nat /\
   (forall i p, sample_progressions !! i = Some p ->
      files m' !! score_path "out" "midi" i
        = Some (@score plain_music21 "midi" p)) /\
   (forall path, path ∉ ["out/0.midi"; "out/1.midi"] ->
      files m' !! path = (∅ : gmap string string) !! path) /\
   dom (files m') =
     list_to_set ["out/0.midi"; "out/1.midi"] ∪ dom (∅ : gmap string string) /\
   (forall i : nat,
      in_directory "out" (decimal (Z.of_nat i) +:+ ".midi")
        (score_path "out" "midi" i))) /\
  files m' !! "out/0.midi" =
    Some (@score plain_music21 "midi" [[48; 52; 55]]) /\
  files m' !! "out/1.midi" =
    Some (@score plain_music21 "midi" [[49; 53; 56]; [48; 51; 55]]) /\
  dom (files m') = {["out/0.midi"; "out/1.midi"]}.
Proof.
  intros m'.
  pose proof (@save_one_file_per_progression plain_music21
                sample_progressions "out" "midi" (fresh ∅ [])
                (or_introl eq_refl)) as Hsaved.
  split; [exact Hsaved|].
  destruct Hsaved as (_ & _ & Hscore & _ & Hdom & _).
  split; [exact (Hscore 0%nat [[48; 52; 55]] eq_refl)|].
  split; [exact (Hscore 1%nat [[49; 53; 56]; [48; 51; 55]] eq_refl)|].
  etrans; [exact Hdom|]. vm_compute. reflexivity.
Defined.

(** ** Reading back what the encoder wrote *)

Lemma value_start_facts (c : ascii) :
  value_start c = true ->
  Json.is_ws c = false /\ Ascii.eqb c "]" = false /\ Ascii.eqb c "," = false.
Proof.
  destruct c as [[] [] [] [] [] [] [] []]; vm_compute; auto; discriminate.
Qed.

Lemma digit_value_start (c : ascii) :
  Json.is_digit c = true ->
  value_start c = true /\ Ascii.eqb c "[" = false.
Proof.
  intros Hc. unfold value_start. rewrite Hc. split; [done|].
  destruct (Ascii.eqb_spec c "[") as [->|]; [discriminate Hc|done].
Qed.

Lemma skip_ws_start (c : ascii) (s : string) :
  Json.is_ws c = false -> Json.skip_ws (String c s) = String c s.
Proof. intros Hc. simpl. by rewrite Hc. Qed.

Lemma skip_ws_newline_indent (indent level : nat) (s : string) :
  Json.skip_ws (Json.newline_indent indent level +:+ s) = Json.skip_ws s.
Proof.
  unfold Json.newline_indent. rewrite string_app_assoc. simpl.
  induction (indent * level)%nat as [|n IH]; simpl; done.
Qed.

Lemma number_ends_cons (c : ascii) (s : string) :
  Json.is_digit c = false -> Ascii.eqb c "." = false ->
  Ascii.eqb c "e" = false -> Ascii.eqb c "E" = false ->
  number_ends (String c s).
Proof. intros Hd H1 H2 H3. split; simpl; [done|]. by rewrite H1, H2, H3. Qed.

Lemma number_ends_nil : number_ends "".
Proof. by split. Qed.

Lemma number_ends_comma (s : string) : number_ends ("," +:+ s).
Proof. by apply number_ends_cons. Qed.

Lemma number_ends_newline_indent (indent level : nat) (s : string) :
  number_ends (Json.newline_indent indent level +:+ s).
Proof.
  unfold Json.newline_indent. rewrite string_app_assoc.
  by apply number_ends_cons.
Qed.

(** The text of an integer is read back as that integer. *)
Lemma match_integer_str (z : Z) (rest : string) :
  Json.starts_with_digit rest = false ->
  Json.match_integer (Py.str z +:+ rest) = Some (Py.str z, rest).
Proof.
  intros Hrest. destruct z as [|p|p].
  - reflexivity.
  - change (Py.str (Z.pos p)) with (NilZero.string_of_uint (Pos.to_uint p)).
    destruct (pos_text p) as (c & s & -> & Hc & H0 & Hm & Hs).
    simpl. by rewrite Hm, H0, Hc, span_digits_app.
  - change (Py.str (Z.neg p))
      with (String "-" (NilZero.string_of_uint (Pos.to_uint p))).
    destruct (pos_text p) as (c & s & -> & Hc & H0 & Hm & Hs).
    simpl. by rewrite H0, Hc, span_digits_app.
Qed.

Lemma str_head (z : Z) :
  exists c s, Py.str z = String c s /\ value_start c = true /\
              Ascii.eqb c "[" = false.
Proof.
  destruct z as [|p|p].
  - by exists "0"%char, "".
  - change (Py.str (Z.pos p)) with (NilZero.string_of_uint (Pos.to_uint p)).
    destruct (pos_text p) as (c & s & -> & Hc & _).
    exists c, s. split; [done|]. by apply digit_value_start.
  - by eexists "-"%char, _.
Qed.

Lemma scan_once_int (fuel : nat) (z : Z) (rest : string) :
  number_ends rest ->
  Json.scan_once (S fuel) (Py.str z +:+ rest) = Some (Json.Int z, rest).
Proof.
  intros [Hdigit Hfloat].
  pose proof (match_integer_str z rest Hdigit) as Hmatch.
  destruct (str_head z) as (c & s & Hstr & _ & Hc).
  assert (Json.scan_once (S fuel) (Py.str z +:+ rest)
          = Json.scan_number (Py.str z +:+ rest)) as ->.
  { rewrite Hstr. change (String c s +:+ rest) with (String c (s +:+ rest)).
    cbn [Json.scan_once]. by rewrite Hc. }
  unfold Json.scan_number. by rewrite Hmatch, Hfloat, int_of_str.
Qed.

Lemma encode_Arr_cons (indent level : nat) (x : Json.value)
    (xs : list Json.value) :
  Json.encode indent level (Json.Arr (x :: xs)) =
    "[" +:+ Json.newline_indent indent (S level) +:+
    Json.encode indent (S level) x +:+ encode_rest indent level xs +:+
    Json.newline_indent indent level +:+ "]".
Proof.
  cbn [Json.encode]. rewrite !string_app_assoc. do 3 f_equal.
  induction xs as [|y ys IH]; [done|].
  cbn [encode_rest]. rewrite !string_app_assoc. do 3 f_equal. exact IH.
Qed.

Lemma encode_head (indent level : nat) (v : Json.value) :
  exists c s, Json.encode indent level v = String c s /\ value_start c = true.
Proof.
  destruct v as [z|[|x xs]].
  - destruct (str_head z) as (c & s & Hs & Hc & _). by exists c, s.
  - by exists "["%char, "]".
  - rewrite encode_Arr_cons. by eexists "["%char, _.
Qed.

Lemma skip_ws_encode (indent level : nat) (v : Json.value) (rest : string) :
  Json.skip_ws (Json.encode indent level v +:+ rest) =
    Json.encode indent level v +:+ rest.
Proof.
  destruct (encode_head indent level v) as (c & s & -> & Hc).
  apply value_start_facts in Hc as (Hws & _).
  by apply skip_ws_start.
Qed.

Lemma value_ind' (P : Json.value -> Prop) :
  (forall z, P (Json.Int z)) ->
  (forall l, Forall P l -> P (Json.Arr l)) ->
  forall v, P v.
Proof.
  intros HInt HArr. fix IH 1. intros [z|l].
  - apply HInt.
  - apply HArr. induction l as [|x l IHl]; constructor; [apply IH|exact IHl].
Qed.

(** One round of the loop of [JSONArray]: after an item comes a comma and
    the next item, or the closing bracket. *)
Lemma array_loop_more (fuel : nat) (s rest : string) (v : Json.value)
    (values : list Json.value) :
  Json.scan_once fuel s = Some (v, "," +:+ rest) ->
  Json.array_loop (S fuel) s values =
    Json.array_loop fuel (Json.skip_ws rest) (values ++ [v]).
Proof. intros Hv. cbn [Json.array_loop]. by rewrite Hv. Qed.

Lemma array_loop_last (fuel indent level : nat) (s rest : string)
    (v : Json.value) (values : list Json.value) :
  Json.scan_once fuel s =
    Some (v, Json.newline_indent indent level +:+ "]" +:+ rest) ->
  Json.array_loop (S fuel) s values = Some (Json.Arr (values ++ [v]), rest).
Proof.
  intros Hv. cbn [Json.array_loop]. rewrite Hv, skip_ws_newline_indent.
  reflexivity.
Qed.

Lemma scan_once_open (fuel indent level : nat) (x : Json.value)
    (s rest : string) :
  Json.skip_ws s = Json.encode indent level x +:+ rest ->
  Json.scan_once (S fuel) ("[" +:+ s) =
    Json.array_loop fuel (Json.encode indent level x +:+ rest) [].
Proof.
  intros Hs. change ("[" +:+ s) with (String "[" s).
  cbn [Json.scan_once]. rewrite Ascii.eqb_refl, Hs.
  destruct (encode_head indent level x) as (c & t & -> & Hc).
  apply value_start_facts in Hc as (_ & Hc & _).
  change (String c t +:+ rest) with (String c (t +:+ rest)).
  cbv beta iota. by rewrite Hc.
Qed.

Section Roundtrip.
Variable indent : nat.

Lemma array_loop_encode (level : nat) (xs : list Json.value) :
  Forall (reads_back indent) xs ->
  forall x values fuel rest,
    reads_back indent x ->
    (String.length (Json.encode indent (S level) x +:+
                    encode_rest indent level xs) < fuel)%nat ->
    Json.array_loop fuel
      (Json.encode indent (S level) x +:+ encode_rest indent level xs +:+
       Json.newline_indent indent level +:+ "]" +:+ rest) values
    = Some (Json.Arr (values ++ x :: xs), rest).
Proof.
  induction 1 as [|y ys Hy _ IH]; intros x values fuel rest Hx Hfuel;
    (destruct fuel as [|fuel]; [lia|]);
    rewrite string_length_app in Hfuel.
  - apply (array_loop_last _ indent level). apply Hx.
    + lia.
    + apply number_ends_newline_indent.
  - cbn [encode_rest] in Hfuel |- *.
    rewrite !string_length_app in Hfuel.
    change (String.length ",") with 1%nat in Hfuel.
    rewrite !string_app_assoc.
    rewrite (array_loop_more fuel _
               (Json.newline_indent indent (S level) +:+
                Json.encode indent (S level) y +:+
                encode_rest indent level ys +:+
                Json.newline_indent indent level +:+ "]" +:+ rest) x).
    + rewrite skip_ws_newline_indent, skip_ws_encode.
      rewrite IH; [by rewrite <- app_assoc|done|].
      rewrite string_length_app. lia.
    + apply Hx; [lia|apply number_ends_comma].
Qed.

Lemma scan_once_encode (v : Json.value) : reads_back indent v.
Proof.
  induction v as [z|l Hl] using value_ind'; intros level fuel rest Hfuel Hrest.
  - cbn [Json.encode] in *.
    destruct fuel as [|fuel]; [|by apply scan_once_int].
    destruct (str_head z) as (c & s & Hs & _). rewrite Hs in Hfuel.
    simpl in Hfuel. lia.
  - destruct Hl as [|x xs Hx Hxs].
    + destruct fuel as [|fuel]; [simpl in Hfuel; lia|reflexivity].
    + rewrite encode_Arr_cons in Hfuel |- *.
      rewrite !string_length_app in Hfuel.
      change (String.length "[") with 1%nat in Hfuel.
      change (String.length "]") with 1%nat in Hfuel.
      destruct fuel as [|fuel]; [lia|].
      rewrite !string_app_assoc.
      rewrite (scan_once_open fuel indent (S level) x _
                 (encode_rest indent level xs +:+
                  Json.newline_indent indent level +:+ "]" +:+ rest)).
      * by rewrite array_loop_encode;
          [|done|done|rewrite string_length_app; lia].
      * by rewrite skip_ws_newline_indent, skip_ws_encode.
Qed.

(** [json.loads(json.dumps(obj, indent=indent)) == obj] *)
Lemma loads_dumps (obj : Json.value) :
  Json.loads (Json.dumps obj indent) = Some obj.
Proof.
  unfold Json.loads, Json.dumps.
  pose proof (scan_once_encode obj 0%nat _ "" (Nat.le_refl _)
                number_ends_nil) as Hscan.
  pose proof (skip_ws_encode indent 0%nat obj "") as Hskip.
  rewrite string_app_nil_r in Hscan, Hskip.
  by rewrite Hskip, Hscan.
Qed.

End Roundtrip.

(** ** Saving as JSON *)

Lemma map_inj {A B} (f : A -> B) :
  (forall x y, f x = f y -> x = y) ->
  forall l1 l2, map f l1 = map f l2 -> l1 = l2.
Proof.
  intros Hf l1. induction l1 as [|x l1 IH]; intros [|y l2] Heq;
    try discriminate; [done|].
  injection Heq as Hxy Heq. f_equal; auto.
Qed.

Lemma of_progressions_inj (ps qs : list progression) :
  Json.of_progressions ps = Json.of_progressions qs -> ps = qs.
Proof.
  unfold Json.of_progressions. intros [= Heq]. revert Heq.
  apply map_inj. unfold Json.of_progression. intros p q [= Heq]. revert Heq.
  apply map_inj. unfold Json.of_chord. intros c d [= Heq]. revert Heq.
  apply map_inj. by intros x y [= ->].
Qed.

Lemma save_json_eq `{Music21} (ps : list progression) (dir_path : string)
    (m : machine) :
  save_chord_progressions ps dir_path "json" m =
    ({| self := self m;
        files := <[Py.path_join dir_path "chord_progressions.json"
                   := Json.dumps (Json.of_progressions ps) 4]> (files m);
        stdout := stdout m ++
          [("Successfully saved chord progressions at " +:+
            Py.path_join dir_path "chord_progressions.json" +:+ Py.nl)
           +:+ Py.nl] |},
     Returned tt).
Proof.
  unfold save_chord_progressions, open_w, json_dump, fp_write, write_file,
    read_local, print, mbind, py_bind, mret, py_ret.
  cbn [String.eqb Ascii.eqb Bool.eqb orb files self stdout].
  rewrite lookup_insert_eq, insert_insert_eq. reflexivity.
Qed.

(** ** The text of the JSON file, line by line *)

Lemma concat_cons2 (sep a b : string) (l : list string) :
  String.concat sep (a :: b :: l) = a +:+ sep +:+ String.concat sep (b :: l).
Proof. reflexivity. Qed.

Lemma encode_rest_concat (indent level : nat) (x : Json.value)
    (xs : list Json.value) (tail : string) :
  (Json.spaces (indent * S level) +:+ Json.encode indent (S level) x) +:+
  encode_rest indent level xs +:+ tail =
  String.concat ("," +:+ Py.nl)
    (map (fun y => Json.spaces (indent * S level) +:+
                   Json.encode indent (S level) y) (x :: xs)) +:+ tail.
Proof.
  revert x. induction xs as [|y ys IH]; intros x; [done|].
  cbn [encode_rest map]. cbn [map] in IH. rewrite concat_cons2.
  rewrite !(string_app_assoc _ _ tail), <- (IH y).
  unfold Json.newline_indent. by rewrite !string_app_assoc.
Qed.

Lemma encode_Arr_concat (indent level : nat) (x : Json.value)
    (xs : list Json.value) :
  Json.encode indent level (Json.Arr (x :: xs)) =
    ("[" +:+ Py.nl) +:+
    String.concat ("," +:+ Py.nl)
      (map (fun y => Json.spaces (indent * S level) +:+
                     Json.encode indent (S level) y) (x :: xs)) +:+
    (Py.nl +:+ Json.spaces (indent * level)) +:+ "]".
Proof.
  rewrite encode_Arr_cons, <- encode_rest_concat.
  unfold Json.newline_indent. by rewrite !string_app_assoc.
Qed.

Lemma chord_lines_eq (c : chord) :
  Json.spaces (4 * 2) +:+ Json.encode 4 2 (Json.of_chord c) = chord_lines c.
Proof.
  destruct c as [|z zs]; [reflexivity|].
  unfold Json.of_chord. cbn [map]. rewrite encode_Arr_concat.
  change (Json.Int z :: map Json.Int zs) with (map Json.Int (z :: zs)).
  rewrite map_map, <- string_app_assoc. reflexivity.
Qed.

Lemma progression_lines_eq (p : progression) :
  Json.spaces (4 * 1) +:+ Json.encode 4 1 (Json.of_progression p) =
    progression_lines p.
Proof.
  destruct p as [|c cs]; [reflexivity|].
  unfold Json.of_progression. cbn [map]. rewrite encode_Arr_concat.
  change (Json.of_chord c :: map Json.of_chord cs)
    with (map Json.of_chord (c :: cs)).
  rewrite map_map, (map_ext _ chord_lines) by apply chord_lines_eq.
  rewrite <- string_app_assoc. reflexivity.
Qed.

Lemma progressions_lines_eq (ps : list progression) :
  Json.encode 4 0 (Json.of_progressions ps) = progressions_lines ps.
Proof.
  destruct ps as [|p ps']; [reflexivity|].
  unfold Json.of_progressions. cbn [map]. rewrite encode_Arr_concat.
  change (Json.of_progression p :: map Json.of_progression ps')
    with (map Json.of_progression (p :: ps')).
  rewrite map_map, (map_ext _ progression_lines)
    by apply progression_lines_eq.
  reflexivity.
Qed.

Example progressions_lines_one_chord :
  progressions_lines [[[48; 52; 55]]] =
"[
    [
        [
            48,
            52,
            55
        ]
    ]
]".
Proof. reflexivity. Qed.

(** C6: saving as "json" writes one file, [chord_progressions.json] in
    the destination directory, and changes no other; its content is the
    list of progressions as nested arrays of integers, one item a line,
    indented by four spaces a level; reading it back gives that same nested
    structure, and so the progressions that were saved, in the same
    order. *)
Theorem save_json_roundtrip `{Music21} (ps : list progression)
    (dir_path : string) (m : machine) :
  let path := Py.path_join dir_path "chord_progressions.json" in
  let r := save_chord_progressions ps dir_path "json" m in
  r.2 = Returned tt /\
  files r.1 = <[path := Json.encode 4 0 (Json.of_progressions ps)]> (files m) /\
  (forall other, other <> path -> files r.1 !! other = files m !! other) /\
  (exists text,
    files r.1 !! path = Some text /\
    Json.loads text = Some (Json.of_progressions ps) /\
    forall qs, Json.loads text = Some (Json.of_progressions qs) -> qs = ps) /\
  in_directory dir_path "chord_progressions.json" path /\
  files r.1 !! path = Some (progressions_lines ps).
Proof.
  intros path r. subst r. rewrite save_json_eq. cbn [fst snd files].
  unfold Json.dumps.
  fold path. split; [done|]. split; [done|]. split; [|split; [|split]].
  - intros other Hother. by apply lookup_insert_ne.
  - exists (Json.dumps (Json.of_progressions ps) 4).
    rewrite lookup_insert_eq, loads_dumps. split; [done|]. split; [done|].
    intros qs Heq. apply of_progressions_inj. congruence.
  - by apply path_join_in_directory.
  - by rewrite lookup_insert_eq, progressions_lines_eq.
Qed.

(** The text written for one progression of one chord. *)
Example dumps_one_chord :
  Json.dumps (Json.of_progressions [[[48; 52; 55]]]) 4 =
"[
    [
        [
            48,
            52,
            55
        ]
    ]
]".
Proof. reflexivity. Qed.

(** C7: saving the same progressions as "json" a second time to the same
    directory replaces the file by the same content: the files are exactly
    those left by the first call. *)
Theorem save_json_idempotent `{Music21} (ps : list progression)
    (dir_path : string) (m : machine) :
  let path := Py.path_join dir_path "chord_progressions.json" in
  let first := save_chord_progressions ps dir_path "json" m in
  let second := save_chord_progressions ps dir_path "json" first.1 in
  first.2 = Returned tt /\ second.2 = Returned tt /\
  files second.1 = files first.1 /\
  files second.1 !! path = Some (Json.dumps (Json.of_progressions ps) 4) /\
  dom (files second.1) = dom (files first.1).
Proof.
  intros path first second. subst first second.
  rewrite !save_json_eq. cbn [fst snd files]. fold path.
  rewrite insert_insert_eq, lookup_insert_eq. done.
Qed.

(** * Further properties *)

(** ** All sequences, each once *)

Section ProductMembers.
Context {A : Type}.
Implicit Types (pool : list A) (r : list (list A)).

Lemma product_step_elem_of r pool (p : list A) :
  p ∈ Py.product_step r pool <->
  exists x y, p = x ++ [y] /\ x ∈ r /\ y ∈ pool.
Proof.
  unfold Py.product_step. rewrite list_elem_of_In, in_flat_map. split.
  - intros (x & Hx & Hp). apply in_map_iff in Hp as (y & <- & Hy).
    exists x, y. by rewrite !list_elem_of_In.
  - intros (x & y & -> & Hx & Hy). exists x.
    rewrite <- list_elem_of_In. split; [done|].
    apply in_map_iff. exists y. by rewrite <- list_elem_of_In.
Qed.

Lemma product_replicate_elem_of (n : nat) pool (p : list A) :
  p ∈ Py.product (replicate n pool) <->
  length p = n /\ Forall (fun y => y ∈ pool) p.
Proof.
  revert p. induction n as [|n IH]; intros p.
  - change (Py.product (replicate 0 pool)) with [@nil A].
    rewrite list_elem_of_singleton. split.
    + by intros ->.
    + intros [Hlen _]. by destruct p.
  - rewrite product_replicate_S, product_step_elem_of. split.
    + intros (x & y & -> & Hx & Hy). apply IH in Hx as [Hlen Hall].
      split; [rewrite length_app, Hlen; simpl; lia|].
      apply Forall_app. split; [done|]. by apply Forall_singleton.
    + intros [Hlen Hall].
      destruct p as [|y x _] using rev_ind; [done|].
      rewrite length_app in Hlen. simpl in Hlen.
      apply Forall_app in Hall as [Hx Hy].
      apply List.Forall_inv in Hy.
      exists x, y. split; [done|]. split; [|done].
      apply IH. split; [lia|done].
Qed.

Lemma product_step_nil r : Py.product_step r (@nil A) = [].
Proof. unfold Py.product_step. induction r as [|x r IH]; simpl; done. Qed.

Lemma product_step_NoDup r pool :
  NoDup r -> NoDup pool -> NoDup (Py.product_step r pool).
Proof.
  intros Hr Hpool. destruct pool as [|y0 pool'] eqn:Epool.
  { rewrite product_step_nil. constructor. }
  rewrite <- Epool in *. assert (0 < length pool)%nat as Hlen.
  { rewrite Epool. simpl. lia. }
  clear Epool. apply NoDup_alt. intros i j p Hi Hj.
  rewrite product_step_lookup in Hi, Hj by done.
  destruct (r !! (i / length pool)%nat) as [xi|] eqn:Hxi; [|done].
  destruct (pool !! (i mod length pool)%nat) as [yi|] eqn:Hyi; [|done].
  destruct (r !! (j / length pool)%nat) as [xj|] eqn:Hxj; [|done].
  destruct (pool !! (j mod length pool)%nat) as [yj|] eqn:Hyj; [|done].
  injection Hi as <-. injection Hj as Heq.
  apply app_inj_tail in Heq as [-> ->].
  pose proof (proj1 (NoDup_alt r) Hr _ _ _ Hxi Hxj) as Hdiv.
  pose proof (proj1 (NoDup_alt pool) Hpool _ _ _ Hyi Hyj) as Hmod.
  rewrite (Nat.div_mod_eq i (length pool)), (Nat.div_mod_eq j (length pool)).
  by rewrite Hdiv, Hmod.
Qed.

Lemma product_replicate_NoDup (n : nat) pool :
  NoDup pool -> NoDup (Py.product (replicate n pool)).
Proof.
  intros Hpool. induction n as [|n IH].
  - change (Py.product (replicate 0 pool)) with [@nil A].
    apply NoDup_singleton.
  - rewrite product_replicate_S. by apply product_step_NoDup.
Qed.

(** One more round of the product can be taken on either side. *)
Lemma product_step_flat_map {B} (f : B -> list (list A)) (l : list B) pool :
  Py.product_step (flat_map f l) pool =
    flat_map (fun b => Py.product_step (f b) pool) l.
Proof.
  unfold Py.product_step. induction l as [|b l IH]; simpl; [done|].
  by rewrite flat_map_app, IH.
Qed.

Lemma product_step_map_app (a : list A) r pool :
  Py.product_step (map (app a) r) pool = map (app a) (Py.product_step r pool).
Proof.
  unfold Py.product_step. induction r as [|x r IH]; simpl; [done|].
  rewrite IH, map_app, !map_map. f_equal.
  apply map_ext. intros y. by rewrite app_assoc.
Qed.

Lemma fold_product_step (pools : list (list A)) (acc : list (list A)) :
  fold_left Py.product_step pools acc =
    flat_map (fun a => map (app a) (Py.product pools)) acc.
Proof.
  induction pools as [|q pools IH] using rev_ind.
  - simpl. induction acc as [|a acc IHa]; simpl; [done|].
    by rewrite app_nil_r, <- IHa.
  - unfold Py.product. rewrite !fold_left_app. simpl.
    fold (Py.product pools). rewrite IH, product_step_flat_map.
    apply flat_map_ext. intros a. apply product_step_map_app.
Qed.

Lemma product_cons pool (pools : list (list A)) :
  Py.product (pool :: pools) =
    flat_map (fun y => map (cons y) (Py.product pools)) pool.
Proof.
  unfold Py.product at 1. simpl. rewrite app_nil_r, fold_product_step.
  induction pool as [|y pool IH]; simpl; [done|]. by rewrite IH.
Qed.

End ProductMembers.

(** X1: whatever the argument and the templates of the generator, the
    progressions returned are exactly the sequences of [num_chords] chords
    (none, when [num_chords] is negative) taken among the templates: every
    one of them is returned, and nothing else is. *)
Theorem generate_all_sequences (m : machine) (num_chords : Z) :
  exists ps,
    result (generate_chord_progressions num_chords m) = Some ps /\
    forall prog : progression,
      prog ∈ ps <->
      length prog = Z.to_nat num_chords /\
      Forall (fun c => c ∈ chord_templates (self m)) prog.
Proof.
  rewrite generate_chord_progressions_eq. unfold result. cbn [snd].
  eexists. split; [reflexivity|]. intros prog.
  apply product_replicate_elem_of.
Qed.

(** X2: when the templates of the generator are pairwise distinct, as those
    the constructor builds are, no progression is returned twice. *)
Theorem generate_no_duplicates (m : machine) (num_chords : Z) :
  NoDup (chord_templates (self m)) ->
  exists ps,
    result (generate_chord_progressions num_chords m) = Some ps /\ NoDup ps.
Proof.
  intros Hnd. rewrite generate_chord_progressions_eq. unfold result.
  cbn [snd]. eexists. split; [reflexivity|].
  by apply product_replicate_NoDup.
Qed.

Lemma generate_no_duplicates_witness :
  exists ps,
    result (generate_chord_progressions 3 (fresh ∅ [])) = Some ps /\ NoDup ps.
Proof.
  apply (generate_no_duplicates (fresh ∅ []) 3).
  apply (bool_decide_unpack _). vm_compute. exact I.
Defined.

(** X3: the progressions of [num_chords + 1] chords are those of
    [num_chords] chords, each followed in turn by every template; and they
    are also, for every template in turn, that template followed by each
    progression of [num_chords] chords. *)
Theorem generate_one_more_chord (m : machine) (num_chords : Z) :
  0 <= num_chords ->
  exists ps qs,
    result (generate_chord_progressions num_chords m) = Some ps /\
    result (generate_chord_progressions (num_chords + 1) m) = Some qs /\
    qs = flat_map (fun prog =>
                     map (fun c => prog ++ [c]) (chord_templates (self m)))
                  ps /\
    qs = flat_map (fun c => map (cons c) ps) (chord_templates (self m)).
Proof.
  intros Hn. rewrite !generate_chord_progressions_eq. unfold result.
  cbn [snd]. eexists _, _. split; [reflexivity|]. split; [reflexivity|].
  replace (Z.to_nat (num_chords + 1)) with (S (Z.to_nat num_chords)) by lia.
  split.
  - apply product_replicate_S.
  - apply (product_cons (chord_templates (self m))).
Qed.

Lemma generate_one_more_chord_witness :
  exists ps qs,
    result (generate_chord_progressions 1 (fresh ∅ [])) = Some ps /\
    result (generate_chord_progressions (1 + 1) (fresh ∅ [])) = Some qs /\
    qs = flat_map (fun prog =>
                     map (fun c => prog ++ [c])
                         (chord_templates (self (fresh ∅ []))))
                  ps /\
    qs = flat_map (fun c => map (cons c) ps)
                  (chord_templates (self (fresh ∅ []))).
Proof. apply (generate_one_more_chord (fresh ∅ []) 1). lia. Defined.

(** ** What saving prints and returns *)

Lemma hundred_step (K : nat) :
  (Z.of_nat K + 1) mod 100 = 0 ->
  (S K / 100)%nat = S (K / 100) /\
  100 * (Z.of_nat (K / 100) + 1) = Z.of_nat K + 1.
Proof.
  intros HK.
  pose proof (Nat.div_mod_eq K 100). pose proof (Nat.mod_upper_bound K 100).
  pose proof (Nat.div_mod_eq (S K) 100).
  pose proof (Nat.mod_upper_bound (S K) 100).
  assert ((S K mod 100)%nat = 0%nat).
  { apply Nat2Z.inj. rewrite Nat2Z.inj_mod, Nat2Z.inj_succ. exact HK. }
  split; nia.
Qed.

Lemma hundred_skip (K : nat) :
  (Z.of_nat K + 1) mod 100 <> 0 -> (S K / 100)%nat = (K / 100)%nat.
Proof.
  intros HK.
  pose proof (Nat.div_mod_eq K 100). pose proof (Nat.mod_upper_bound K 100).
  pose proof (Nat.div_mod_eq (S K) 100).
  pose proof (Nat.mod_upper_bound (S K) 100).
  assert ((S K mod 100)%nat <> 0%nat).
  { intros Hz. apply HK. apply (f_equal Z.of_nat) in Hz.
    by rewrite Nat2Z.inj_mod, Nat2Z.inj_succ in Hz. }
  nia.
Qed.

Lemma enumerate_snoc {A} (l : list A) (x : A) :
  enumerate (l ++ [x]) = enumerate l ++ [(Z.of_nat (length l), x)].
Proof.
  unfold enumerate. rewrite imap_app. simpl.
  by rewrite Nat.add_0_r.
Qed.

Lemma progress_of_app (tot : Z) (l1 l2 : list (Z * progression)) :
  progress_of tot (l1 ++ l2) = progress_of tot l1 ++ progress_of tot l2.
Proof. unfold progress_of. apply flat_map_app. Qed.

(** A line is printed after every hundredth progression. *)
Lemma progress_of_enumerate (tot : Z) (ps : list progression) :
  progress_of tot (enumerate ps) =
    map (fun j => saved_notice (100 * (Z.of_nat j + 1)) tot)
        (seq 0 (length ps / 100)).
Proof.
  induction ps as [|p ps IH] using rev_ind; [done|].
  rewrite enumerate_snoc, progress_of_app, IH, length_app.
  cbn [length]. rewrite Nat.add_1_r.
  unfold progress_of at 1. cbn [flat_map fst]. rewrite app_nil_r.
  destruct (Z.eqb_spec ((Z.of_nat (length ps) + 1) mod 100) 0) as [H0|H0].
  - destruct (hundred_step _ H0) as [-> <-].
    by rewrite seq_S, map_app.
  - rewrite (hundred_skip _ H0). by rewrite app_nil_r.
Qed.

Section SaveOutput.
Context `{Music21}.
Variables (dir_path file_type : string).

Lemma last_path_enumerate (loc : option string) (ps : list progression)
    (p : progression) :
  last_path dir_path file_type loc (enumerate (ps ++ [p])) =
    Some (score_path dir_path file_type (length ps)).
Proof.
  unfold last_path. rewrite enumerate_snoc, fold_left_app. reflexivity.
Qed.

Lemma save_loop_body_full tot i p loc m :
  save_loop_body dir_path file_type tot (i, p) loc m =
    ({| self := self m;
        files := <[Py.path_join dir_path (Py.str i +:+ "." +:+ file_type)
                   := score file_type p]> (files m);
        stdout := stdout m ++ progress_of tot [(i, p)] |},
     Returned (Some (Py.path_join dir_path
                       (Py.str i +:+ "." +:+ file_type)))).
Proof.
  unfold save_loop_body, _save_chord_progression, score, progress_of.
  rewrite fold_left_snoc, fold_left_snoc_map.
  cbn [flat_map fst app].
  unfold mbind, py_bind, write_file, print, mret, py_ret, saved_notice.
  destruct (_ =? _); cbn [self files stdout]; by rewrite ?app_nil_r.
Qed.

Lemma save_loop_full tot l loc m :
  for_each l (save_loop_body dir_path file_type tot) loc m =
    ({| self := self m;
        files := write_all (scores dir_path file_type l) (files m);
        stdout := stdout m ++ progress_of tot l |},
     Returned (last_path dir_path file_type loc l)).
Proof.
  revert loc m. induction l as [|[i p] l IH]; intros loc m.
  - cbn [for_each]. unfold progress_of. cbn [flat_map].
    rewrite app_nil_r. by destruct m.
  - cbn [for_each]. unfold mbind, py_bind.
    rewrite save_loop_body_full, IH. cbn [self files stdout].
    change ((i, p) :: l) with ([(i, p)] ++ l).
    by rewrite progress_of_app, app_assoc.
Qed.

(** Saving a list that is not empty as "midi" or "xml". *)
Lemma save_scores_eq (ps : list progression) (m : machine) :
  file_type = "midi" \/ file_type = "xml" ->
  ps <> [] ->
  save_chord_progressions ps dir_path file_type m =
    ({| self := self m;
        files := write_all (scores dir_path file_type (enumerate ps))
                           (files m);
        stdout := stdout m ++
          map (fun j => saved_notice (100 * (Z.of_nat j + 1))
                                     (Z.of_nat (length ps)))
              (seq 0 (length ps / 100)) ++
          [success_notice (score_path dir_path file_type (length ps - 1))] |},
     Returned tt).
Proof.
  intros Hft Hps. unfold save_chord_progressions.
  assert ((String.eqb file_type "midi" || String.eqb file_type "xml")%bool
          = true) as ->.
  { destruct Hft as [-> | ->]; reflexivity. }
  unfold mbind at 1. unfold py_bind. rewrite save_loop_full.
  destruct ps as [|p ps _] using rev_ind; [done|].
  rewrite last_path_enumerate, progress_of_enumerate.
  rewrite length_app. cbn [length]. rewrite Nat.add_1_r.
  replace (S (length ps) - 1)%nat with (length ps) by lia.
  cbn [read_local]. unfold mbind, py_bind, mret, py_ret, print, success_notice.
  cbn [self files stdout]. by rewrite <- app_assoc.
Qed.

End SaveOutput.

(** X4: saving a list that is not empty as "midi" or "xml" returns
    normally; it prints one progress line after every hundredth
    progression, giving the number saved so far and the total, and at the
    end the success line, which names the file of the last progression. *)
Theorem save_scores_output `{Music21} (ps : list progression)
    (dir_path file_type : string) (m : machine) :
  file_type = "midi" \/ file_type = "xml" ->
  ps <> [] ->
  let r := save_chord_progressions ps dir_path file_type m in
  r.2 = Returned tt /\
  stdout r.1 =
    stdout m ++
    map (fun j => saved_notice (100 * (Z.of_nat j + 1))
                               (Z.of_nat (length ps)))
        (seq 0 (length ps / 100)) ++
    [success_notice (score_path dir_path file_type (length ps - 1))].
Proof.
  intros Hft Hps r. subst r. by rewrite save_scores_eq.
Qed.

Lemma save_scores_output_witness :
  let r := @save_chord_progressions plain_music21 sample_progressions
             "out" "midi" (fresh ∅ []) in
  r.2 = Returned tt /\
  stdout r.1 =
    stdout (fresh ∅ []) ++
    map (fun j => saved_notice (100 * (Z.of_nat j + 1))
                               (Z.of_nat (length sample_progressions)))
        (seq 0 (length sample_progressions / 100)) ++
    [success_notice (score_path "out" "midi"
                       (length sample_progressions - 1))].
Proof.
  apply (@save_scores_output plain_music21 sample_progressions "out" "midi"
           (fresh ∅ [])).
  - left. reflexivity.
  - discriminate.
Defined.

(** X5: for the formats "midi" and "xml", [_save_chord_progression]
    returns normally, prints nothing, leaves the generator as it is, and
    creates or replaces the file it is given and no other; for "midi" the
    content is what the writer makes of a stream with a single part, which
    has one chord object for each chord of the progression, in order. *)
Theorem save_chord_progression_one_part `{Music21}
    (chord_progression : progression) (file_path file_type : string)
    (m : machine) :
  file_type = "midi" \/ file_type = "xml" ->
  let r := _save_chord_progression chord_progression file_path file_type m in
  r.2 = Returned tt /\
  self r.1 = self m /\
  stdout r.1 = stdout m /\
  is_Some (files r.1 !! file_path) /\
  (forall other, other <> file_path ->
     files r.1 !! other = files m !! other) /\
  (file_type = "midi" ->
   exists part,
     length part = length chord_progression /\
     (forall i, part !! i = Chord <$> chord_progression !! i) /\
     files r.1 !! file_path = Some (stream_write "midi" [part])).
Proof.
  intros _ r. subst r. unfold _save_chord_progression.
  rewrite fold_left_snoc, fold_left_snoc_map.
  unfold write_file. cbn [fst snd self files stdout].
  split; [done|]. split; [done|]. split; [done|]. split; [|split].
  - rewrite lookup_insert_eq. by eexists.
  - intros other Hother. by rewrite lookup_insert_ne.
  - intros ->. exists (map Chord chord_progression).
    split; [apply length_map|]. split.
    + intros i. change (map Chord chord_progression)
        with (Chord <$> chord_progression). apply list_lookup_fmap.
    + by rewrite lookup_insert_eq.
Qed.

Lemma save_chord_progression_one_part_witness :
  let r := @_save_chord_progression plain_music21
             [[49; 53; 56]; [48; 51; 55]] "out/1.midi" "midi" (fresh ∅ []) in
  r.2 = Returned tt /\
  self r.1 = self (fresh ∅ []) /\
  stdout r.1 = stdout (fresh ∅ []) /\
  is_Some (files r.1 !! "out/1.midi") /\
  (forall other, other <> "out/1.midi" ->
     files r.1 !! other = files (fresh ∅ []) !! other) /\
  ("midi" = "midi" ->
   exists part,
     length part = length [[49; 53; 56]; [48; 51; 55]] /\
     (forall i, part !! i =
        @Chord plain_music21 <$> [[49; 53; 56]; [48; 51; 55]] !! i) /\
     files r.1 !! "out/1.midi" =
       Some (@stream_write plain_music21 "midi" [part])).
Proof.
  apply (@save_chord_progression_one_part plain_music21
           [[49; 53; 56]; [48; 51; 55]] "out/1.midi" "midi" (fresh ∅ [])).
  left. reflexivity.
Defined.

(** X6: with no progression at all, saving as "json" still succeeds (where
    "midi" and "xml" raise): the file holds the empty array. *)
Theorem save_json_empty `{Music21} (dir_path : string) (m : machine) :
  let r := save_chord_progressions [] dir_path "json" m in
  r.2 = Returned tt /\
  files r.1 !! Py.path_join dir_path "chord_progressions.json" = Some "[]".
Proof.
  intros r. subst r. rewrite save_json_eq. cbn [fst snd files].
  by rewrite lookup_insert_eq.
Qed.

(** X7: the JSON file determines the progressions: two lists saved with
    the same content, wherever they were saved, are equal. *)
Theorem save_json_injective `{Music21} (ps qs : list progression)
    (dir_ps dir_qs : string) (m_ps m_qs : machine) :
  files (save_chord_progressions ps dir_ps "json" m_ps).1
    !! Py.path_join dir_ps "chord_progressions.json" =
  files (save_chord_progressions qs dir_qs "json" m_qs).1
    !! Py.path_join dir_qs "chord_progressions.json" ->
  ps = qs.
Proof.
  rewrite !save_json_eq. cbn [fst files]. rewrite !lookup_insert_eq.
  intros [= Heq]. apply of_progressions_inj.
  apply (f_equal Json.loads) in Heq. rewrite !loads_dumps in Heq.
  congruence.
Qed.

Lemma save_json_injective_witness :
  files (@save_chord_progressions plain_music21 sample_progressions "a"
           "json" (fresh ∅ [])).1
    !! Py.path_join "a" "chord_progressions.json" =
  files (@save_chord_progressions plain_music21 sample_progressions "b"
           "json" (fresh ∅ ["x"])).1
    !! Py.path_join "b" "chord_progressions.json" /\
  sample_progressions = sample_progressions.
Proof.
  assert (files (@save_chord_progressions plain_music21 sample_progressions
                   "a" "json" (fresh ∅ [])).1
            !! Py.path_join "a" "chord_progressions.json" =
          files (@save_chord_progressions plain_music21 sample_progressions
                   "b" "json" (fresh ∅ ["x"])).1
            !! Py.path_join "b" "chord_progressions.json") as Hsame.
  { vm_compute. reflexivity. }
  split; [exact Hsame|].
  exact (@save_json_injective plain_music21 sample_progressions
           sample_progressions "a" "b" (fresh ∅ []) (fresh ∅ ["x"]) Hsame).
Defined.

(** ** Saving again, and saving in two formats *)

Lemma write_all_idem (ws : list (string * string))
    (fs : gmap string string) :
  NoDup ws.*1 -> write_all ws (write_all ws fs) = write_all ws fs.
Proof.
  intros Hnd. apply map_eq. intros k.
  destruct (decide (k ∈ ws.*1)) as [Hin|Hout].
  - apply list_elem_of_fmap in Hin as ([k' v] & -> & Hkv).
    apply list_elem_of_lookup in Hkv as [i Hi].
    by rewrite !(write_all_lookup ws _ i k' v).
  - by rewrite !write_all_lookup_notin.
Qed.

Lemma json_path_eq (dir_path : string) :
  Py.path_join dir_path "chord_progressions.json" =
    path_stem dir_path +:+ "chord_progressions.json".
Proof.
  unfold Py.path_join, path_stem. cbn [Py.starts_with_sep].
  change (Ascii.eqb "c" "/") with false. cbv iota.
  destruct (_ || _)%bool; [done|]. by rewrite string_app_assoc.
Qed.

Lemma score_path_not_json (dir_path file_type : string) (i : nat) :
  score_path dir_path file_type i <>
    Py.path_join dir_path "chord_progressions.json".
Proof.
  rewrite score_path_eq, json_path_eq. intros Heq.
  apply String.app_inj in Heq.
  destruct (str_nonneg (Z.of_nat i)) as (c & s & Hs & Hc & _); [lia|].
  rewrite Hs in Heq. injection Heq as -> _. discriminate Hc.
Qed.

Lemma json_path_not_score (dir_path file_type : string)
    (ps : list progression) :
  Py.path_join dir_path "chord_progressions.json"
    ∉ score_path dir_path file_type <$> seq 0 (length ps).
Proof.
  intros Hin. apply list_elem_of_fmap in Hin as (i & Heq & _).
  by apply (score_path_not_json dir_path file_type i).
Qed.

Lemma save_other_eq `{Music21} (ps : list progression)
    (dir_path file_type : string) (m : machine) :
  file_type <> "midi" -> file_type <> "xml" -> file_type <> "json" ->
  save_chord_progressions ps dir_path file_type m =
    (m, Raised (UnboundLocalError "file_path")).
Proof.
  intros Hmidi Hxml Hjson.
  apply String.eqb_neq in Hmidi, Hxml, Hjson.
  unfold save_chord_progressions. rewrite Hmidi, Hxml, Hjson. reflexivity.
Qed.

(** X8: saving never removes a file, whatever the format asked for and
    whether the call returns or raises: every file present before the call
    is present after it. *)
Theorem save_removes_nothing `{Music21} (ps : list progression)
    (dir_path file_type : string) (m : machine) :
  dom (files m) ⊆
  dom (files (save_chord_progressions ps dir_path file_type m).1).
Proof.
  destruct (decide (file_type = "midi" \/ file_type = "xml")) as [Hft|Hft].
  - rewrite save_scores_files, write_all_dom by done.
    apply union_subseteq_r.
  - destruct (decide (file_type = "json")) as [->|Hjson].
    + rewrite save_json_eq. cbn [fst files]. rewrite dom_insert_L.
      apply union_subseteq_r.
    + rewrite save_other_eq; [done|tauto|tauto|done].
Qed.

(** X9: saving the same progressions as "midi" a second time to the same
    directory leaves the files exactly as the first call left them (the
    MIDI writer being a function of the stream it is given). *)
Theorem save_midi_idempotent `{Music21} (ps : list progression)
    (dir_path : string) (m : machine) :
  let first := save_chord_progressions ps dir_path "midi" m in
  let second := save_chord_progressions ps dir_path "midi" first.1 in
  files second.1 = files first.1.
Proof.
  intros first second. subst first second.
  rewrite !save_scores_files by (by left). apply write_all_idem.
  rewrite scores_enumerate_names.
  apply (NoDup_fmap_2 _ (Inj0 := score_path_inj dir_path "midi")).
  apply NoDup_seq.
Qed.

(** X10: saving as "json" and as "midi" or "xml" to the same directory, in
    either order, do not disturb each other: afterwards the JSON file holds
    the whole list and the file of every index holds the score of its
    progression. *)
Theorem save_json_and_scores `{Music21} (ps : list progression)
    (dir_path file_type : string) (m : machine) :
  file_type = "midi" \/ file_type = "xml" ->
  let json_first :=
    (save_chord_progressions ps dir_path file_type
       (save_chord_progressions ps dir_path "json" m).1).1 in
  let json_last :=
    (save_chord_progressions ps dir_path "json"
       (save_chord_progressions ps dir_path file_type m).1).1 in
  forall fs, fs = files json_first \/ fs = files json_last ->
    fs !! Py.path_join dir_path "chord_progressions.json" =
      Some (Json.dumps (Json.of_progressions ps) 4) /\
    forall i p, ps !! i = Some p ->
      fs !! score_path dir_path file_type i = Some (score file_type p).
Proof.
  intros Hft json_first json_last fs Hfs.
  assert (NoDup (scores dir_path file_type (enumerate ps)).*1) as Hnd.
  { rewrite scores_enumerate_names.
    apply (NoDup_fmap_2 _ (Inj0 := score_path_inj dir_path file_type)).
    apply NoDup_seq. }
  assert (forall fs0 i p, ps !! i = Some p ->
            write_all (scores dir_path file_type (enumerate ps)) fs0
              !! score_path dir_path file_type i = Some (score file_type p))
    as Hscore.
  { intros fs0 i p Hp. apply (write_all_lookup _ _ i); [done|].
    by rewrite scores_enumerate_lookup, Hp. }
  subst json_first json_last.
  rewrite !save_json_eq, !save_scores_files in Hfs by done.
  cbn [fst files] in Hfs. destruct Hfs as [-> | ->]; split.
  - rewrite write_all_lookup_notin, lookup_insert_eq; [done|].
    rewrite scores_enumerate_names. apply json_path_not_score.
  - intros i p Hp. by apply Hscore.
  - by rewrite lookup_insert_eq.
  - intros i p Hp. rewrite lookup_insert_ne; [by apply Hscore|].
    intros Heq. by apply (score_path_not_json dir_path file_type i).
Qed.

Lemma save_json_and_scores_witness :
  let fs :=
    files (@save_chord_progressions plain_music21 sample_progressions "out"
             "midi"
             (@save_chord_progressions plain_music21 sample_progressions
                "out" "json" (fresh ∅ [])).1).1 in
  fs !! Py.path_join "out" "chord_progressions.json" =
    Some (Json.dumps (Json.of_progressions sample_progressions) 4) /\
  forall i p, sample_progressions !! i = Some p ->
    fs !! score_path "out" "midi" i = Some (@score plain_music21 "midi" p).
Proof.
  intros fs.
  apply (@save_json_and_scores plain_music21 sample_progressions "out"
           "midi" (fresh ∅ []) (or_introl eq_refl) fs).
  left. reflexivity.
Defined.

(** ** The script as a whole *)







